(** * The user controller (backend/controller/user.js)

    A shallow embedding of the route handlers of the user controller:
    registration, login, address update, password change, public lookup
    and referral attribution.  Every handler is a function from the state
    of the world before the request (the two collections and the upload
    directory) to the state after it and the one response the handler
    produces: [next(new ErrorHandler(..))], [res.status(..).json(..)] or
    [sendToken(..)]. *)

From Stdlib Require Import ZArith Ascii String.
From stdpp Require Import gmap strings list fin_maps pretty.

(** ** JavaScript values *)

(** [ObjectId]: the identifier of a stored document.  [toString] is its
    hexadecimal rendering, what [referral.userId.toString()] and
    [req.user.id] return. *)
Record ObjectId := mkObjectId { toString : string }.

(** The values a request body or a document field holds.  [JNum] covers
    the integer-valued numbers; [JObject] stands for any other object
    (array, nested object). *)
Inductive jsval :=
| JUndefined
| JNull
| JBool (b : bool)
| JNum (n : Z)
| JString (s : string)
| JObjectId (o : ObjectId)
| JObject.

(** [if (v)], [!v]: ToBoolean. *)
Definition truthy (v : jsval) : bool :=
  match v with
  | JUndefined | JNull => false
  | JBool b => b
  | JNum n => negb (n =? 0)%Z
  | JString s => negb (String.eqb s "")
  | JObjectId _ | JObject => true
  end.

(** [a === b].  Primitives compare by type and value.  Objects compare by
    reference, and in every comparison of this controller the two operands
    come from different allocations (a stored document and the parsed
    request body, or two properties of the parsed body), so a comparison
    with an object operand is false. *)
Definition strict_eq (a b : jsval) : bool :=
  match a, b with
  | JUndefined, JUndefined => true
  | JNull, JNull => true
  | JBool x, JBool y => Bool.eqb x y
  | JNum x, JNum y => (x =? y)%Z
  | JString x, JString y => String.eqb x y
  | _, _ => false
  end.

(** [`${v}`]: the string a template literal renders a value as. *)
Definition template (v : jsval) : string :=
  match v with
  | JUndefined => "undefined"
  | JNull => "null"
  | JBool true => "true"
  | JBool false => "false"
  | JNum n => pretty n
  | JString s => s
  | JObjectId o => toString o
  | JObject => "[object Object]"
  end.

(** [s.toUpperCase()], on the ASCII letters. *)
Definition upper_ascii (c : ascii) : ascii :=
  let n := nat_of_ascii c in
  if (97 <=? n)%nat && (n <=? 122)%nat then ascii_of_nat (n - 32) else c.

Fixpoint toUpperCase (s : string) : string :=
  match s with
  | EmptyString => EmptyString
  | String c r => String (upper_ascii c) (toUpperCase r)
  end.

(** A JavaScript object used as a record with an open set of fields: an
    address, [req.body] of the address route.  Reading an absent property
    gives [undefined]. *)
Definition prop (o : gmap string jsval) (k : string) : jsval :=
  default JUndefined (o !! k).

(** [Object.assign(target, source)]: every own property of [source] is
    written to [target]; the other properties of [target] stay. *)
Definition Object_assign (target source : gmap string jsval) : gmap string jsval :=
  source ∪ target.

(** ** Documents *)

(** [Model.findOne(filter)]: the first document the filter accepts. *)
Definition findOne {A} (filter : A → bool) (docs : list A) : option A :=
  List.find filter docs.

Module User.

Record t := mk {
  _id : ObjectId;
  name : jsval;
  email : jsval;
  password : jsval;
  phoneNumber : jsval;
  panCard : jsval;
  gender : jsval;
  avatar : string;
  addresses : list (gmap string jsval);
  referralCode : string;
  referredBy : option ObjectId
}.

(** [user.referredBy = r], [user.password = p] and the write of the
    address array. *)
Definition set_referredBy (u : t) (r : option ObjectId) : t :=
  mk (_id u) (name u) (email u) (password u) (phoneNumber u) (panCard u)
     (gender u) (avatar u) (addresses u) (referralCode u) r.

Definition set_password (u : t) (p : jsval) : t :=
  mk (_id u) (name u) (email u) p (phoneNumber u) (panCard u)
     (gender u) (avatar u) (addresses u) (referralCode u) (referredBy u).

Definition set_addresses (u : t) (l : list (gmap string jsval)) : t :=
  mk (_id u) (name u) (email u) (password u) (phoneNumber u) (panCard u)
     (gender u) (avatar u) l (referralCode u) (referredBy u).

(** [User.findById(id)]: the identifier arrives as a string (or as an
    ObjectId) and is matched on its hexadecimal form; no other value
    names a document.  The CastError the store throws for a string that is
    not an ObjectId is not part of this lookup; it is modelled where the
    string is typed into the URL ([user_info] below). *)
Definition findById (docs : list t) (id : jsval) : option t :=
  match id with
  | JString s => findOne (λ u, String.eqb (toString (_id u)) s) docs
  | JObjectId o => findOne (λ u, String.eqb (toString (_id u)) (toString o)) docs
  | _ => None
  end.

(** [user.save()]: the stored document with the identifier of [u] is
    replaced by [u].  The hooks and validators of the model (not part of
    the sources) are left out: the save is taken to succeed and the fields
    are kept as assigned. *)
Fixpoint save (u : t) (docs : list t) : list t :=
  match docs with
  | [] => []
  | v :: rest =>
      if String.eqb (toString (_id v)) (toString (_id u)) then u :: rest
      else v :: save u rest
  end.

End User.

(** Modelled from the spec: the usage entries of a referral code
    (model/referralCode.js is not part of the sources): each records the
    user who redeemed the code. *)
Record Usage := mkUsage {
  usedBy : jsval;
  usedByName : jsval
}.

Module ReferralCode.

Record t := mk {
  code : string;
  userId : ObjectId;
  userName : jsval;
  usages : list Usage
}.

End ReferralCode.

(** What [verifyReferralCode] resolves a code to. *)
Record ReferrerDetails := mkReferrerDetails {
  referrerId : ObjectId;
  referrerName : jsval;
  referrerCode : string
}.

(** The world a handler runs in: the two collections and the files under
    the working directory. *)
Record World := mkWorld {
  users : list User.t;
  referralCodes : list ReferralCode.t;
  files : gset string
}.

(** ** Responses *)

Inductive jsonBody :=
| body_user (success : bool) (user : option User.t)
| body_message (success : bool) (message : string).

(** [responseData] of the registration route. *)
Record ResponseData := mkResponseData {
  rd_success : bool;
  rd_user : User.t;
  rd_referrer : option (jsval * string)
}.

Inductive response :=
| next_ErrorHandler (message : string) (statusCode : option Z)
| res_status_json (status : Z) (body : jsonBody)
| sendToken (user : User.t) (statusCode : Z) (data : option ResponseData).

(** ** Collaborators that are not part of the sources

    The referral utilities (utils/ReferralCodeGenerate), the password
    comparison of the user model and the identifier the store gives a new
    document are taken as parameters.  Their types follow the contracts the
    spec gives them: verification and generation read the stores, recording
    a usage rewrites the referral codes and nothing else. *)
Class Externals := {
  verifyReferralCode : World → jsval → option ReferrerDetails;
  generateReferralCode : World → jsval → string;
  updateReferralUsage : World → jsval → jsval → jsval → list ReferralCode.t;
  comparePassword : User.t → jsval → bool;
  new_ObjectId : World → ObjectId
}.

(** ** Requests *)

(** [req.body], the file multer stored for the request ([req.file.filename],
    kept under uploads/), [req.params.id], and [req.user.id] as the
    authentication middleware sets it. *)
Record Request := mkRequest {
  body : gmap string jsval;
  file : option string;
  params_id : string;
  user_id : string
}.

(** ** The stores *)

Definition set_users (w : World) (us : list User.t) : World :=
  mkWorld us (referralCodes w) (files w).

Definition set_referralCodes (w : World) (rs : list ReferralCode.t) : World :=
  mkWorld (users w) rs (files w).

(** The cleanup block of the registration route:
    [if (req.file) fs.unlink(`uploads/${req.file.filename}`, ..)]. *)
Definition unlink_upload (w : World) (req : Request) : World :=
  match file req with
  | Some filename => mkWorld (users w) (referralCodes w) (files w ∖ {["uploads/" +:+ filename]})
  | None => w
  end.

(** The cast of a request string to an ObjectId, which the store applies
    to the id of [findById]: a string of 24 hexadecimal digits is the id it
    spells (in lower case, as [toString] prints ids); any other string makes
    the query throw a CastError.  A string of exactly 12 characters is
    accepted by older drivers and rejected by newer ones; the model follows
    the newer ones, and no property below depends on that case. *)
Definition is_hex (c : ascii) : bool :=
  let n := nat_of_ascii c in
  ((48 <=? n)%nat && (n <=? 57)%nat)
  || ((97 <=? n)%nat && (n <=? 102)%nat)
  || ((65 <=? n)%nat && (n <=? 70)%nat).

Definition is_hex24 (s : string) : bool :=
  (String.length s =? 24)%nat && forallb is_hex (list_ascii_of_string s).

Definition lower_ascii (c : ascii) : ascii :=
  let n := nat_of_ascii c in
  if (65 <=? n)%nat && (n <=? 90)%nat then ascii_of_nat (n + 32) else c.

Fixpoint toLowerCase (s : string) : string :=
  match s with
  | EmptyString => EmptyString
  | String c r => String (lower_ascii c) (toLowerCase r)
  end.

Definition castObjectId (s : string) : option ObjectId :=
  if is_hex24 s then Some (mkObjectId (toLowerCase s)) else None.

(** The message of the CastError the store throws for the id [s]. *)
Definition CastError_message (s : string) : string :=
  let quote := String "034"%char EmptyString in
  "Cast to ObjectId failed for value " +:+ quote +:+ s +:+ quote
  +:+ " (type string) at path " +:+ quote +:+ "_id" +:+ quote
  +:+ " for model " +:+ quote +:+ "User" +:+ quote.

(** Modelled from the spec: the password is write-only in normal responses
    (section 3; model/user.js is not part of the sources): a query without
    [.select("+password")] returns the document without its password. *)
Definition select_default (u : User.t) : User.t :=
  User.set_password u JUndefined.

(** ** The handlers *)

Section Controller.
Context `{Externals}.

(** POST /create-user.  The three writes at the end are taken to succeed;
    of the catch block, the one exception the handler itself can raise
    (the PAN card is not a string) is modelled. *)
Definition create_user (w : World) (req : Request) : World * response :=
  let name := prop (body req) "name" in
  let email := prop (body req) "email" in
  let password := prop (body req) "password" in
  let phoneNumber := prop (body req) "phoneNumber" in
  let panCard := prop (body req) "panCard" in
  let gender := prop (body req) "gender" in
  let inputReferralCode := prop (body req) "inputReferralCode" in
  if negb (truthy name) || negb (truthy password) || negb (truthy phoneNumber)
     || negb (truthy panCard) || negb (truthy gender)
  then (unlink_upload w req,
        next_ErrorHandler "Please provide all required fields!" (Some 400%Z))
  else
    let referrerDetails :=
      if truthy inputReferralCode then verifyReferralCode w inputReferralCode
      else None in
    if truthy inputReferralCode && negb (bool_decide (is_Some referrerDetails))
    then (w, next_ErrorHandler "Invalid referral code!" (Some 400%Z))
    else
      let newUserReferralCode := generateReferralCode w name in
      if truthy email
         && bool_decide (is_Some (findOne (λ u, strict_eq (User.email u) email) (users w)))
      then (unlink_upload w req, next_ErrorHandler "Email already exists" (Some 400%Z))
      else
        match panCard with
        | JString pan =>
            match findOne (λ u, strict_eq (User.panCard u) (JString (toUpperCase pan)))
                          (users w) with
            | Some _ =>
                (unlink_upload w req,
                 next_ErrorHandler "PAN card already registered" (Some 400%Z))
            | None =>
                (* path.join of the one file name is that name *)
                let fileUrl := match file req with
                               | Some filename => filename
                               | None => "defaultAvatar.png"
                               end in
                let user :=
                  User.mk (new_ObjectId w) name email password phoneNumber panCard
                         gender fileUrl [] newUserReferralCode
                         (match referrerDetails with
                          | Some d => Some (referrerId d)
                          | None => None
                          end) in
                let w1 := set_users w (users w ++ [user]) in
                let w2 := set_referralCodes w1
                            (referralCodes w1
                             ++ [ReferralCode.mk newUserReferralCode (User._id user)
                                                (User.name user) []]) in
                let w3 := match referrerDetails with
                          | Some _ =>
                              set_referralCodes w2
                                (updateReferralUsage w2 inputReferralCode
                                   (JObjectId (User._id user)) (User.name user))
                          | None => w2
                          end in
                (w3, sendToken user 201
                       (Some (mkResponseData true user
                                (match referrerDetails with
                                 | Some d => Some (referrerName d, referrerCode d)
                                 | None => None
                                 end))))
            end
        | _ =>
            (* panCard.toUpperCase() throws; the catch block runs *)
            (unlink_upload w req,
             next_ErrorHandler "panCard.toUpperCase is not a function" (Some 400%Z))
        end.

(** POST /login-user *)
Definition login_user (w : World) (req : Request) : World * response :=
  let email := prop (body req) "email" in
  let password := prop (body req) "password" in
  if negb (truthy email) || negb (truthy password)
  then (w, next_ErrorHandler "Please provide the all fields!" (Some 400%Z))
  else
    match findOne (λ u, strict_eq (User.email u) email) (users w) with
    | None => (w, next_ErrorHandler "User doesn't exists!" (Some 400%Z))
    | Some user =>
        if negb (comparePassword user password)
        then (w, next_ErrorHandler "Please provide the correct information" (Some 400%Z))
        else (w, sendToken user 201 None)
    end.

(** PUT /update-user-addresses *)
Definition update_user_addresses (w : World) (req : Request) : World * response :=
  match User.findById (users w) (JString (user_id req)) with
  | None =>
      (w, next_ErrorHandler "Cannot read properties of null (reading 'addresses')"
            (Some 500%Z))
  | Some user =>
      match list_find (λ address,
               strict_eq (prop address "addressType") (prop (body req) "addressType") = true)
              (User.addresses user) with
      | Some _ =>
          (w, next_ErrorHandler
                (template (prop (body req) "addressType") +:+ " address already exists")
                None)
      | None =>
          let addresses' :=
            match list_find (λ address,
                     strict_eq (prop address "_id") (prop (body req) "_id") = true)
                    (User.addresses user) with
            | Some (i, existsAddress) =>
                <[i := Object_assign existsAddress (body req)]> (User.addresses user)
            | None => User.addresses user ++ [body req]
            end in
          let user' := User.set_addresses user addresses' in
          (set_users w (User.save user' (users w)),
           res_status_json 200 (body_user true (Some user')))
      end
  end.

(** PUT /update-user-password *)
Definition update_user_password (w : World) (req : Request) : World * response :=
  match User.findById (users w) (JString (user_id req)) with
  | None =>
      (w, next_ErrorHandler
            "Cannot read properties of null (reading 'comparePassword')" (Some 500%Z))
  | Some user =>
      if negb (comparePassword user (prop (body req) "oldPassword"))
      then (w, next_ErrorHandler "Old password is incorrect!" (Some 400%Z))
      else if negb (strict_eq (prop (body req) "newPassword")
                              (prop (body req) "confirmPassword"))
      then (w, next_ErrorHandler "Password doesn't matched with each other!"
                 (Some 400%Z))
      else
        let user' := User.set_password user (prop (body req) "newPassword") in
        (set_users w (User.save user' (users w)),
         res_status_json 200 (body_message true "Password updated successfully!"))
  end.

(** GET /user-info/:id.  The id comes from the URL as it was typed: when
    the store cannot cast it, [findById] throws and the catch block
    answers. *)
Definition user_info (w : World) (req : Request) : World * response :=
  match castObjectId (params_id req) with
  | None => (w, next_ErrorHandler (CastError_message (params_id req)) (Some 500%Z))
  | Some id =>
      let user := select_default <$> User.findById (users w) (JObjectId id) in
      (w, res_status_json 201 (body_user true user))
  end.

(** POST /apply-referral.  The lookups and the two writes are taken to
    succeed, so the catch block does not appear. *)
Definition apply_referral (w : World) (req : Request) : World * response :=
  let referralCode := prop (body req) "referralCode" in
  let userId := prop (body req) "userId" in
  match findOne (λ r, strict_eq (JString (ReferralCode.code r)) referralCode) (referralCodes w) with
  | None => (w, next_ErrorHandler "Invalid referral code" (Some 400%Z))
  | Some referral =>
      if strict_eq (JString (toString (ReferralCode.userId referral))) userId
      then (w, next_ErrorHandler "Cannot use your own referral code" (Some 400%Z))
      else
        match User.findById (users w) userId with
        | None => (w, next_ErrorHandler "User not found" (Some 400%Z))
        | Some user =>
            match User.referredBy user with
            | Some _ =>
                (w, next_ErrorHandler "You have already used a referral code"
                      (Some 400%Z))
            | None =>
                let user' := User.set_referredBy user (Some (ReferralCode.userId referral)) in
                let w1 := set_users w (User.save user' (users w)) in
                let w2 := set_referralCodes w1
                            (updateReferralUsage w1 referralCode userId JUndefined) in
                (w2, res_status_json 200
                       (body_message true "Referral code applied successfully"))
            end
        end
  end.

(** A history of registration and apply-referral requests. *)
Inductive operation :=
| op_create_user (req : Request)
| op_apply_referral (req : Request).

Definition step (w : World) (o : operation) : World :=
  match o with
  | op_create_user req => fst (create_user w req)
  | op_apply_referral req => fst (apply_referral w req)
  end.

Definition run (w : World) (ops : list operation) : World :=
  foldl step w ops.

End Controller.

(** ** The other routes of the controller *)

(** [user.name = ..; user.email = ..; user.phoneNumber = ..] of the profile
    route, and the [avatar] write of the avatar route. *)
Definition set_profile (u : User.t) (name email phoneNumber : jsval) : User.t :=
  User.mk (User._id u) name email (User.password u) phoneNumber (User.panCard u)
          (User.gender u) (User.avatar u) (User.addresses u) (User.referralCode u)
          (User.referredBy u).

Definition set_avatar (u : User.t) (a : string) : User.t :=
  User.mk (User._id u) (User.name u) (User.email u) (User.password u)
          (User.phoneNumber u) (User.panCard u) (User.gender u) a
          (User.addresses u) (User.referralCode u) (User.referredBy u).

(** [User.findByIdAndUpdate(id, { avatar })]: the document with that id gets
    the new avatar; the call is made without the [new] option, so what it
    returns is the document as it was before the update. *)
Definition findByIdAndUpdate_avatar (docs : list User.t) (id : string) (a : string)
  : list User.t * option User.t :=
  match User.findById docs (JString id) with
  | Some u => (User.save (set_avatar u a) docs, Some u)
  | None => (docs, None)
  end.

(** [User.findByIdAndDelete(id)]: the first document with that id is
    removed. *)
Fixpoint findByIdAndDelete (docs : list User.t) (id : string) : list User.t :=
  match docs with
  | [] => []
  | v :: rest =>
      if String.eqb (toString (User._id v)) id then rest
      else v :: findByIdAndDelete rest id
  end.

(** The condition [{ _id: addressId }] of the [$pull]: the stored id is
    that identifier, as a string or as an ObjectId. *)
Definition has_id (id : string) (address : gmap string jsval) : bool :=
  match prop address "_id" with
  | JString s => String.eqb s id
  | JObjectId o => String.eqb (toString o) id
  | _ => false
  end.

(** [User.updateOne({ _id }, { $pull: { addresses: { _id: addressId } } })]:
    every address with that id leaves the array of the user; without such a
    user nothing is updated. *)
Definition updateOne_pull (docs : list User.t) (userId addressId : string)
  : list User.t :=
  match User.findById docs (JString userId) with
  | Some u =>
      User.save (User.set_addresses u
                   (List.filter (λ a, negb (has_id addressId a)) (User.addresses u)))
                docs
  | None => docs
  end.

(** [fs.unlinkSync(path)]: the file is removed; a path that names no file
    throws ENOENT. *)
Definition unlinkSync (fs : gset string) (path : string) : string + gset string :=
  if bool_decide (path ∈ fs) then inr (fs ∖ {[path]})
  else inl ("ENOENT: no such file or directory, unlink '" +:+ path +:+ "'").

(** GET /getuser *)
Definition getuser (w : World) (req : Request) : World * response :=
  match User.findById (users w) (JString (user_id req)) with
  | None => (w, next_ErrorHandler "User doesn't exists" (Some 400%Z))
  | Some user => (w, res_status_json 200 (body_user true (Some (select_default user))))
  end.

(** PUT /update-avatar *)
Definition update_avatar (w : World) (req : Request) : World * response :=
  match User.findById (users w) (JString (user_id req)) with
  | None =>
      (w, next_ErrorHandler "Cannot read properties of null (reading 'avatar')"
            (Some 500%Z))
  | Some existsUser =>
      let existAvatarPath := "uploads/" +:+ User.avatar existsUser in
      match unlinkSync (files w) existAvatarPath with
      | inl message => (w, next_ErrorHandler message (Some 500%Z))
      | inr fs =>
          let w1 := mkWorld (users w) (referralCodes w) fs in
          match file req with
          | None =>
              (w1, next_ErrorHandler
                     "Cannot read properties of undefined (reading 'filename')"
                     (Some 500%Z))
          | Some filename =>
              let fileUrl := filename in
              let '(docs, user) :=
                findByIdAndUpdate_avatar (users w1) (user_id req) fileUrl in
              (set_users w1 docs, res_status_json 200 (body_user true user))
          end
      end
  end.

(** DELETE /delete-user-address/:id *)
Definition delete_user_address (w : World) (req : Request) : World * response :=
  let userId := user_id req in
  let addressId := params_id req in
  let w1 := set_users w (updateOne_pull (users w) userId addressId) in
  let user := User.findById (users w1) (JString userId) in
  (w1, res_status_json 200 (body_user true user)).

(** DELETE /delete-user/:id (past the admin check) *)
Definition delete_user (w : World) (req : Request) : World * response :=
  match User.findById (users w) (JString (params_id req)) with
  | None => (w, next_ErrorHandler "User is not available with this id" (Some 400%Z))
  | Some _ =>
      (set_users w (findByIdAndDelete (users w) (params_id req)),
       res_status_json 201 (body_message true "User deleted successfully!"))
  end.

Section Account.
Context `{Externals}.

(** PUT /update-user-info *)
Definition update_user_info (w : World) (req : Request) : World * response :=
  let email := prop (body req) "email" in
  let password := prop (body req) "password" in
  let phoneNumber := prop (body req) "phoneNumber" in
  let name := prop (body req) "name" in
  match findOne (λ u, strict_eq (User.email u) email) (users w) with
  | None => (w, next_ErrorHandler "User not found" (Some 400%Z))
  | Some user =>
      if negb (comparePassword user password)
      then (w, next_ErrorHandler "Please provide the correct information" (Some 400%Z))
      else
        let user' := set_profile user name email phoneNumber in
        (set_users w (User.save user' (users w)),
         res_status_json 201 (body_user true (Some user')))
  end.

(** The routes of the router, and a history of requests to them. *)
Inductive route :=
| create_user_route
| login_user_route
| getuser_route
| update_user_info_route
| update_avatar_route
| update_user_addresses_route
| delete_user_address_route
| update_user_password_route
| user_info_route
| delete_user_route
| apply_referral_route.

Definition dispatch (r : route) : World → Request → World * response :=
  match r with
  | create_user_route => create_user
  | login_user_route => login_user
  | getuser_route => getuser
  | update_user_info_route => update_user_info
  | update_avatar_route => update_avatar
  | update_user_addresses_route => update_user_addresses
  | delete_user_address_route => delete_user_address
  | update_user_password_route => update_user_password
  | user_info_route => user_info
  | delete_user_route => delete_user
  | apply_referral_route => apply_referral
  end.

Definition serve (w : World) (history : list (route * Request)) : World :=
  foldl (λ w '(r, req), fst (dispatch r w req)) w history.

(** Along the history, every registration is handed an identifier that no
    stored user has at that moment. *)
Fixpoint ids_fresh (w : World) (history : list (route * Request)) : Prop :=
  match history with
  | [] => True
  | (r, req) :: rest =>
      (r = create_user_route →
       toString (new_ObjectId w) ∉ (λ u, toString (User._id u)) <$> users w)
      ∧ ids_fresh (fst (dispatch r w req)) rest
  end.

End Account.

(** ** A reference implementation of the collaborators *)

(** Modelled from the spec: the verification utility (utils/ReferralCodeGenerate
    is not part of the sources) checks an input code against the store and
    resolves it to the referrer who owns it. *)
Definition ref_verifyReferralCode (w : World) (c : jsval) : option ReferrerDetails :=
  match findOne (λ r, strict_eq (JString (ReferralCode.code r)) c) (referralCodes w) with
  | Some r => Some (mkReferrerDetails (ReferralCode.userId r) (ReferralCode.userName r)
                                      (ReferralCode.code r))
  | None => None
  end.

(** Modelled from the spec: the generation utility issues a code for the
    new user; here the name followed by the number of codes issued so far. *)
Definition ref_generateReferralCode (w : World) (name : jsval) : string :=
  template name +:+ pretty (length (referralCodes w)).

(** Modelled from the spec: recording a usage event adds an entry with the
    redeeming user to the record of the code. *)
Definition ref_updateReferralUsage (w : World) (c uid uname : jsval)
  : list ReferralCode.t :=
  (λ r, if strict_eq (JString (ReferralCode.code r)) c
        then ReferralCode.mk (ReferralCode.code r) (ReferralCode.userId r)
               (ReferralCode.userName r) (ReferralCode.usages r ++ [mkUsage uid uname])
        else r) <$> referralCodes w.

(** Modelled from the spec: the password comparison of the user model
    (model/user.js is not part of the sources) accepts exactly the password
    the stored one was derived from; the derivation itself is left out. *)
Definition ref_comparePassword (u : User.t) (p : jsval) : bool :=
  strict_eq (User.password u) p.

(** The identifier number [n]: its decimal digits, padded with zeros to
    the 24 hexadecimal digits of an ObjectId. *)
Definition hex24 (n : nat) : string :=
  let digits := pretty n in
  string_of_list_ascii (replicate (24 - String.length digits) "0"%char) +:+ digits.

(** Modelled from the spec: every document has a unique id; the store
    numbers the users. *)
Definition ref_new_ObjectId (w : World) : ObjectId :=
  mkObjectId (hex24 (length (users w))).

Definition reference : Externals :=
  Build_Externals ref_verifyReferralCode ref_generateReferralCode
                  ref_updateReferralUsage ref_comparePassword ref_new_ObjectId.

(** ** Sample data *)

Definition alice_id : string := hex24 0.
Definition bob_id : string := hex24 1.

Definition alice : User.t :=
  User.mk (mkObjectId alice_id) (JString "Alice") (JString "alice@shop.in") (JString "s3cret")
          (JString "9000000001") (JString "ABCDE1234F") (JString "female")
          "defaultAvatar.png"
          [ {[ "_id" := JString "a1"; "addressType" := JString "Home";
               "city" := JString "Pune" ]} ]
          "Alice0" None.

Definition bob : User.t :=
  User.mk (mkObjectId bob_id) (JString "Bob") JUndefined (JString "hunter2")
          (JString "9000000002") (JString "PQRST5678G") (JString "male")
          "bob.png" [] "Bob1" (Some (mkObjectId alice_id)).

Definition shop : World :=
  mkWorld [alice; bob]
          [ ReferralCode.mk "Alice0" (mkObjectId alice_id) (JString "Alice") [];
            ReferralCode.mk "Bob1" (mkObjectId bob_id) (JString "Bob") [] ]
          {[ "uploads/bob.png"; "uploads/carol.png" ]}.

(** A registration form with every required field, for Carol. *)
Definition carol_form : gmap string jsval :=
  {[ "name" := JString "Carol"; "password" := JString "pw-carol";
     "phoneNumber" := JString "9000000003"; "panCard" := JString "lmnop4321q";
     "gender" := JString "female" ]}.

(** *** Sample requests *)

(** Registration: Carol with her photo; Carol without gender; Carol with a
    referral code that nobody owns; Carol with such a code and, in lower
    case, the PAN card of Alice. *)
Definition carol_req : Request := mkRequest carol_form (Some "carol.png") "" "".

Definition no_gender_req : Request :=
  mkRequest (delete "gender" carol_form) (Some "carol.png") "" "".

Definition bogus_code_req : Request :=
  mkRequest (<["inputReferralCode" := JString "BOGUS"]> carol_form)
          (Some "carol.png") "" "".

Definition known_pan_req : Request :=
  mkRequest (<["panCard" := JString "abcde1234f"]>
               (<["inputReferralCode" := JString "BOGUS"]> carol_form))
            (Some "carol.png") "" "".

(** Apply-referral: Alice with her own code; Bob, who was referred by
    Alice, with the code of Alice again. *)
Definition own_code_req : Request :=
  mkRequest {[ "referralCode" := JString "Alice0"; "userId" := JString alice_id ]} None "" "".

Definition second_code_req : Request :=
  mkRequest {[ "referralCode" := JString "Alice0"; "userId" := JString bob_id ]} None "" "".

(** Addresses of Alice: a second Home address; new fields for the address
    with id a1; an Office address with an id that is not stored. *)
Definition second_home_req : Request :=
  mkRequest {[ "addressType" := JString "Home"; "city" := JString "Goa" ]} None "" alice_id.

Definition edit_a1_req : Request :=
  mkRequest {[ "_id" := JString "a1"; "addressType" := JString "Work";
             "zipCode" := JNum 400001 ]} None "" alice_id.

Definition office_req : Request :=
  mkRequest {[ "_id" := JString "a2"; "addressType" := JString "Office" ]} None "" alice_id.

(** Password of Alice: wrong old password; new and confirmation differ;
    a proper change. *)
Definition wrong_old_req : Request :=
  mkRequest {[ "oldPassword" := JString "guess"; "newPassword" := JString "n3w";
             "confirmPassword" := JString "n3w" ]} None "" alice_id.

Definition mismatch_req : Request :=
  mkRequest {[ "oldPassword" := JString "s3cret"; "newPassword" := JString "n3w";
             "confirmPassword" := JString "new" ]} None "" alice_id.

Definition change_req : Request :=
  mkRequest {[ "oldPassword" := JString "s3cret"; "newPassword" := JString "n3w";
             "confirmPassword" := JString "n3w" ]} None "" alice_id.

(** Login of Alice, and a lookup of an id nobody has. *)
Definition login_req : Request :=
  mkRequest {[ "email" := JString "alice@shop.in"; "password" := JString "s3cret" ]}
          None "" "".

Definition nobody_req : Request := mkRequest ∅ None (hex24 7) "".

(** A lookup of an id that is not an ObjectId. *)
Definition malformed_req : Request := mkRequest ∅ None "not-an-objectid" "".

(** Registration: with the email of Alice; with an email of her own; with
    the PAN card in upper case. *)
Definition alice_mail_req : Request :=
  mkRequest (<["email" := JString "alice@shop.in"]> carol_form)
            (Some "carol.png") "" "".

Definition carol_mail_req : Request :=
  mkRequest (<["email" := JString "carol@shop.in"]> carol_form) None "" "".

Definition carol_upper_req : Request :=
  mkRequest (<["panCard" := JString "LMNOP4321Q"]> carol_form) None "" "".

(** The record the shop creates for Carol, registered with her photo. *)
Definition carol : User.t :=
  User.mk (mkObjectId (hex24 2)) (JString "Carol") JUndefined (JString "pw-carol")
          (JString "9000000003") (JString "lmnop4321q") (JString "female")
          "carol.png" [] "Carol2" None.

(** The session of Carol, once registered, and her login. *)
Definition carol_session_req : Request := mkRequest ∅ None "" (hex24 2).

Definition carol_login_req : Request :=
  mkRequest {[ "email" := JString "carol@shop.in"; "password" := JString "pw-carol" ]}
            None "" "".

(** Alice redeems the code of Bob. *)
Definition bob_code_req : Request :=
  mkRequest {[ "referralCode" := JString "Bob1"; "userId" := JString alice_id ]}
            None "" "".

(** Avatar: Bob sends a new picture; Bob sends none; Alice, whose avatar
    file is not on disk, sends one. *)
Definition bob_avatar_req : Request := mkRequest ∅ (Some "carol.png") "" bob_id.
Definition bob_no_avatar_req : Request := mkRequest ∅ None "" bob_id.
Definition alice_avatar_req : Request := mkRequest ∅ (Some "carol.png") "" alice_id.

(** Delete-address in the session of Alice: her address a1, the address a2,
    an id she has no address for. *)
Definition delete_a1_req : Request := mkRequest ∅ None "a1" alice_id.
Definition delete_a2_req : Request := mkRequest ∅ None "a2" alice_id.

(** Delete-user for Bob and for Alice. *)
Definition delete_bob_req : Request := mkRequest ∅ None bob_id "".
Definition delete_alice_req : Request := mkRequest ∅ None alice_id "".

(** The profile route with the email and password of Alice, sent in the
    session of Bob. *)
Definition profile_req : Request :=
  mkRequest {[ "email" := JString "alice@shop.in"; "password" := JString "s3cret";
               "name" := JString "Alicia"; "phoneNumber" := JString "9111111111" ]}
            None "" bob_id.

(** A second shop: Alice and Dana, both with the default avatar, which is
    on disk; Dana has no referrer. *)
Definition dana_id : string := hex24 5.

Definition dana : User.t :=
  User.mk (mkObjectId dana_id) (JString "Dana") (JString "dana@shop.in") (JString "pw-dana")
          (JString "9000000005") (JString "FGHIJ6789K") (JString "female")
          "defaultAvatar.png" [] "Dana5" None.

Definition gallery : World :=
  mkWorld [alice; dana]
          [ ReferralCode.mk "Alice0" (mkObjectId alice_id) (JString "Alice") [];
            ReferralCode.mk "Dana5" (mkObjectId dana_id) (JString "Dana") [] ]
          {[ "uploads/defaultAvatar.png"; "uploads/new.png" ]}.

Definition dana_avatar_req : Request := mkRequest ∅ (Some "new.png") "" dana_id.

Definition dana_code_req : Request :=
  mkRequest {[ "referralCode" := JString "Alice0"; "userId" := JString dana_id ]}
            None "" "".

(** ** Vocabulary of the properties *)

(** The handler answered [next(new ErrorHandler(message, status))]. *)
Definition fails_with (r : response) (status : Z) : Prop :=
  ∃ message, r = next_ErrorHandler message (Some status).


(** The handler issued a token. *)
Definition issues_token (r : response) : Prop :=
  ∃ user status data, r = sendToken user status data.

(** No document was created, changed or removed. *)
Definition same_records (w w' : World) : Prop :=
  users w' = users w ∧ referralCodes w' = referralCodes w.

(** The file uploaded with the request, if any, is gone. *)
Definition upload_deleted (w' : World) (req : Request) : Prop :=
  ∀ filename, file req = Some filename → "uploads/" +:+ filename ∉ files w'.

(** The two tests of the address route, on a stored address. *)
Definition same_type (req : Request) (address : gmap string jsval) : bool :=
  strict_eq (prop address "addressType") (prop (body req) "addressType").


(** The string is written in ASCII characters, on which [toUpperCase] above
    is what JavaScript computes. *)
Definition is_ascii (s : string) : bool :=
  forallb (λ c, (nat_of_ascii c <? 128)%nat) (list_ascii_of_string s).

(** The fields the registration route requires. *)
Definition required_fields : list string :=
  ["name"; "password"; "phoneNumber"; "panCard"; "gender"].

(** [referredBy] of the user with identifier [id]; [None] when there is no
    such user or the field is null. *)
Definition referredBy_of (w : World) (id : string) : option ObjectId :=
  User.findById (users w) (JString id) ≫= User.referredBy.

(** No two stored users share an email, among the emails that count as
    supplied. *)
Definition emails_unique (docs : list User.t) : Prop :=
  ∀ i j a b, docs !! i = Some a → docs !! j = Some b →
             truthy (User.email a) = true →
             strict_eq (User.email a) (User.email b) = true → i = j.

(** No two addresses of a list have the same addressType: no address has
    the type of an address further down the list. *)
Fixpoint one_per_type (l : list (gmap string jsval)) : Prop :=
  match l with
  | [] => True
  | a :: rest =>
      (∀ b, b ∈ rest →
            strict_eq (prop a "addressType") (prop b "addressType") = false)
      ∧ one_per_type rest
  end.

(** Every stored user has at most one address per addressType. *)
Definition addresses_ok (w : World) : Prop :=
  ∀ u, u ∈ users w → one_per_type (User.addresses u).

(** The identifiers of the stored users, in store order. *)
Definition ids (w : World) : list string :=
  (λ u, toString (User._id u)) <$> users w.

(** The request [req] as sent in the session of the user [id]. *)
Definition as_user (id : string) (req : Request) : Request :=
  mkRequest (body req) (file req) (params_id req) id.

(** * Properties *)

Section Properties.
Context `{Externals}.

Lemma absent_falsy (o : gmap string jsval) (k : string) :
  o !! k = None → truthy (prop o k) = false.
Proof. intros E. unfold prop. rewrite E. reflexivity. Qed.

Lemma unlink_upload_records w req : same_records w (unlink_upload w req).
Proof. unfold unlink_upload. destruct (file req); split; reflexivity. Qed.

Lemma unlink_upload_deleted w req : upload_deleted (unlink_upload w req) req.
Proof.
  intros filename E. unfold unlink_upload. rewrite E. simpl.
  apply not_elem_of_difference. right. by apply elem_of_singleton.
Qed.

(** The guard of the registration route, read off the list of required
    fields. *)
Lemma required_guard (b : gmap string jsval) (k : string) :
  k ∈ required_fields → truthy (prop b k) = false →
  negb (truthy (prop b "name")) || negb (truthy (prop b "password"))
  || negb (truthy (prop b "phoneNumber")) || negb (truthy (prop b "panCard"))
  || negb (truthy (prop b "gender")) = true.
Proof.
  unfold required_fields. intros Hk Hf.
  repeat (apply elem_of_cons in Hk as [E | Hk];
          [rewrite <- E, Hf; simpl; rewrite ?orb_true_r; reflexivity |]).
  by apply elem_of_nil in Hk.
Qed.

(** C6. A registration request in which one of name, password,
    phoneNumber, panCard or gender is missing (absent or empty) is
    answered with a 400 error, the uploaded file (if any) is deleted, and
    neither collection changes. *)
Theorem create_user_missing_field w req k :
  k ∈ required_fields →
  truthy (prop (body req) k) = false →
  fails_with (snd (create_user w req)) 400
  ∧ upload_deleted (fst (create_user w req)) req
  ∧ same_records w (fst (create_user w req)).
Proof.
  intros Hk Hf. unfold create_user.
  rewrite (required_guard _ _ Hk Hf). simpl.
  split; [by eexists |].
  split; [apply unlink_upload_deleted | apply unlink_upload_records].
Qed.

(** The registration route, past the required-field guard, with a
    referral code that does not verify: the answer is a 400 and the world
    is handed back as it was, the uploaded file included. *)
Lemma create_user_invalid_referral w req :
  (∀ k, k ∈ required_fields → truthy (prop (body req) k) = true) →
  truthy (prop (body req) "inputReferralCode") = true →
  verifyReferralCode w (prop (body req) "inputReferralCode") = None →
  create_user w req = (w, next_ErrorHandler "Invalid referral code!" (Some 400%Z)).
Proof.
  intros Hreq Ht Hv. unfold create_user.
  rewrite !Hreq by (unfold required_fields; set_solver).
  rewrite Ht, Hv. reflexivity.
Qed.

(** A public lookup whose id the store cannot cast (neither 24 hexadecimal
    digits nor 12 characters) is answered by the catch block: a 500 error,
    and nothing changes. *)
Lemma user_info_malformed_id w req :
  is_hex24 (params_id req) = false →
  String.length (params_id req) ≠ 12 →
  fails_with (snd (user_info w req)) 500 ∧ fst (user_info w req) = w.
Proof.
  intros Hbad _. unfold user_info, castObjectId. rewrite Hbad.
  split; [by eexists | reflexivity].
Qed.

(** C9, as amended. A public lookup whose id is a string of 24 hexadecimal
    digits that names no user is not an error: the answer has status 201,
    success true and a null user, and nothing changes. *)
Theorem user_info_unknown_id w req :
  is_hex24 (params_id req) = true →
  User.findById (users w) (JObjectId (mkObjectId (toLowerCase (params_id req)))) = None →
  user_info w req = (w, res_status_json 201 (body_user true None)).
Proof.
  intros Hhex Hnone. unfold user_info, castObjectId.
  rewrite Hhex, Hnone. reflexivity.
Qed.

(** C2. An apply-referral request whose code resolves to a record owned
    by the target user itself is answered with a 400 error; no document
    changes, so no referredBy is set and no usage is recorded. *)
Theorem apply_referral_own_code w req referral :
  findOne (λ r, strict_eq (JString (ReferralCode.code r))
                          (prop (body req) "referralCode"))
          (referralCodes w) = Some referral →
  prop (body req) "userId" = JString (toString (ReferralCode.userId referral)) →
  fails_with (snd (apply_referral w req)) 400
  ∧ fst (apply_referral w req) = w.
Proof.
  intros Hfind Hself. unfold apply_referral.
  rewrite Hfind, Hself. simpl. rewrite String.eqb_refl. simpl.
  split; [by eexists | reflexivity].
Qed.

(** *** Lookups after a write *)

Lemma findOne_app {A} (p : A → bool) (l l' : list A) (x : A) :
  findOne p l = Some x → findOne p (l ++ l') = Some x.
Proof.
  unfold findOne. induction l as [| y l IH]; simpl; [discriminate |].
  destruct (p y); auto.
Qed.

Lemma findById_app l l' id u :
  User.findById l id = Some u → User.findById (l ++ l') id = Some u.
Proof. destruct id; simpl; try discriminate; apply findOne_app. Qed.

Lemma findById_Some_id l id u :
  User.findById l id = Some u →
  User.findById l (JString (toString (User._id u))) = Some u.
Proof.
  destruct id; simpl; try discriminate; intros E;
    (assert (Hk := E); unfold findOne in Hk; apply find_some in Hk as [_ Hk];
     apply String.eqb_eq in Hk; rewrite Hk; exact E).
Qed.

Lemma findById_save_other u' s l :
  String.eqb (toString (User._id u')) s = false →
  User.findById (User.save u' l) (JString s) = User.findById l (JString s).
Proof.
  intros Hne. simpl. unfold findOne.
  induction l as [| v l IH]; simpl; [reflexivity |].
  destruct (String.eqb (toString (User._id v)) (toString (User._id u'))) eqn:E; simpl.
  - apply String.eqb_eq in E. rewrite E, Hne. reflexivity.
  - destruct (String.eqb (toString (User._id v)) s); [reflexivity | exact IH].
Qed.

Lemma findById_save_same u u' s l :
  User.findById l (JString s) = Some u →
  User._id u' = User._id u →
  User.findById (User.save u' l) (JString s) = Some u'.
Proof.
  intros Hfind Hid. simpl in *. unfold findOne in *.
  induction l as [| v l IH]; simpl in *; [discriminate |].
  destruct (String.eqb (toString (User._id v)) s) eqn:Ev.
  - injection Hfind as ->. rewrite Hid, String.eqb_refl. simpl.
    rewrite Hid, Ev. reflexivity.
  - destruct (String.eqb (toString (User._id v)) (toString (User._id u'))) eqn:E; simpl.
    + apply find_some in Hfind as [_ Hs].
      apply String.eqb_eq in E. rewrite E, Hid, Hs in Ev. discriminate.
    + rewrite Ev. auto.
Qed.

(** Registration leaves the stored users alone: it adds one at the end
    or changes nothing. *)
Lemma create_user_users w req :
  users (fst (create_user w req)) = users w
  ∨ ∃ user, users (fst (create_user w req)) = users w ++ [user].
Proof.
  unfold create_user, unlink_upload.
  repeat case_match; simpl; eauto.
Qed.

Lemma create_user_keeps_referredBy w req id r :
  referredBy_of w id = Some r →
  referredBy_of (fst (create_user w req)) id = Some r.
Proof.
  unfold referredBy_of. intros Hr.
  destruct (create_user_users w req) as [-> | [user ->]]; [exact Hr |].
  destruct (User.findById (users w) (JString id)) as [u |] eqn:E; [| discriminate].
  by rewrite (findById_app _ _ _ _ E).
Qed.

Lemma apply_referral_keeps_referredBy w req id r :
  referredBy_of w id = Some r →
  referredBy_of (fst (apply_referral w req)) id = Some r.
Proof.
  unfold referredBy_of, apply_referral. intros Hr.
  destruct (findOne _ (referralCodes w)) as [referral |]; [| exact Hr].
  destruct (strict_eq _ _); [exact Hr |].
  destruct (User.findById (users w) (prop (body req) "userId")) as [user |] eqn:Hu;
    [| exact Hr].
  destruct (User.referredBy user) eqn:Hnone; [exact Hr |].
  unfold set_referralCodes, set_users. cbn [fst users].
  destruct (String.eqb (toString (User._id user)) id) eqn:E.
  - apply String.eqb_eq in E. apply findById_Some_id in Hu.
    rewrite E in Hu. rewrite Hu in Hr. simpl in Hr. congruence.
  - rewrite findById_save_other; [exact Hr | exact E].
Qed.

Lemma run_keeps_referredBy ops w id r :
  referredBy_of w id = Some r → referredBy_of (run w ops) id = Some r.
Proof.
  unfold run. revert w.
  induction ops as [| o ops IH]; intros w Hr; simpl; [exact Hr |].
  apply IH. destruct o; simpl.
  - by apply create_user_keeps_referredBy.
  - by apply apply_referral_keeps_referredBy.
Qed.

(** C1. Once the referredBy of a user is non-null it keeps that value
    through every history of registration and apply-referral requests,
    and an apply-referral request that targets this user is answered
    with a 400 error and changes nothing. *)
Theorem referredBy_set_at_most_once w id r :
  referredBy_of w id = Some r →
  (∀ ops, referredBy_of (run w ops) id = Some r)
  ∧ (∀ req, prop (body req) "userId" = JString id →
            fails_with (snd (apply_referral w req)) 400
            ∧ fst (apply_referral w req) = w).
Proof.
  intros Hr. split.
  - intros ops. by apply run_keeps_referredBy.
  - intros req Hid. unfold apply_referral. rewrite Hid.
    unfold referredBy_of in Hr.
    destruct (findOne _ (referralCodes w)) as [referral |];
      [| split; [by eexists | reflexivity]].
    destruct (strict_eq _ (JString id)); [split; [by eexists | reflexivity] |].
    destruct (User.findById (users w) (JString id)) as [user |]; [| discriminate].
    simpl in Hr. rewrite Hr. split; [by eexists | reflexivity].
Qed.

(** What of C4 holds on the code: a registration whose PAN card, in upper
    case, is the stored PAN card of some user is answered with a 400 error
    and creates no record; the upload is deleted unless the request was
    already refused for its referral code. *)
Lemma create_user_duplicate_panCard w req pan existing :
  prop (body req) "panCard" = JString pan →
  findOne (λ u, strict_eq (User.panCard u) (JString (toUpperCase pan))) (users w)
    = Some existing →
  fails_with (snd (create_user w req)) 400
  ∧ same_records w (fst (create_user w req))
  ∧ (truthy (prop (body req) "inputReferralCode") = false
     ∨ is_Some (verifyReferralCode w (prop (body req) "inputReferralCode")) →
     upload_deleted (fst (create_user w req)) req).
Proof.
  intros Hpan Hdup. unfold create_user. rewrite Hpan, Hdup.
  destruct (_ || _ || _ || _ || _); simpl.
  { split; [by eexists |].
    split; [apply unlink_upload_records | intros _; apply unlink_upload_deleted]. }
  destruct (truthy (prop (body req) "inputReferralCode")) eqn:Hcode; simpl.
  - destruct (verifyReferralCode w _) as [d |] eqn:Hv; simpl.
    + destruct (_ && _); (split; [by eexists |]);
        (split; [apply unlink_upload_records | intros _; apply unlink_upload_deleted]).
    + split; [by eexists |]. split; [by split |].
      intros [[=] | [d [=]]].
  - destruct (_ && _); (split; [by eexists |]);
      (split; [apply unlink_upload_records | intros _; apply unlink_upload_deleted]).
Qed.


(** C7. Password change by an authenticated user.  A wrong old password
    is answered with a 400 error, and so is a newPassword that differs
    from confirmPassword; in both cases nothing is saved.  With the old
    password right and the two new ones equal, the answer is the success
    message and the stored user has the new password. *)
Theorem update_user_password_cases w req user :
  User.findById (users w) (JString (user_id req)) = Some user →
  (comparePassword user (prop (body req) "oldPassword") = false →
     fails_with (snd (update_user_password w req)) 400
     ∧ fst (update_user_password w req) = w)
  ∧ (strict_eq (prop (body req) "newPassword")
               (prop (body req) "confirmPassword") = false →
     fails_with (snd (update_user_password w req)) 400
     ∧ fst (update_user_password w req) = w)
  ∧ (comparePassword user (prop (body req) "oldPassword") = true →
     strict_eq (prop (body req) "newPassword")
               (prop (body req) "confirmPassword") = true →
     snd (update_user_password w req)
       = res_status_json 200 (body_message true "Password updated successfully!")
     ∧ ∃ user',
         User.findById (users (fst (update_user_password w req)))
                       (JString (user_id req)) = Some user'
         ∧ User.password user' = prop (body req) "newPassword").
Proof.
  intros Hu. unfold update_user_password. rewrite Hu.
  split; [| split].
  - intros ->. simpl. split; [by eexists | reflexivity].
  - intros ->. simpl.
    destruct (comparePassword user _); simpl; (split; [by eexists | reflexivity]).
  - intros -> ->. simpl. split; [reflexivity |].
    eexists. split;
      [apply findById_save_same with user; [exact Hu | reflexivity] | reflexivity].
Qed.

(** C8. Login.  When no user has the supplied email the answer is a 400
    error.  When a user has it and the password does not match, the
    answer is a 400 error and no token is issued.  When email and password
    are supplied, a user has the email and the password matches, a token
    is issued for that user with status 201.  A request that lacks the
    email or the password is answered with a 400 error before any lookup.
    Login never changes the world. *)
Theorem login_user_cases w req :
  (findOne (λ u, strict_eq (User.email u) (prop (body req) "email")) (users w) = None →
     fails_with (snd (login_user w req)) 400)
  ∧ (∀ user,
       findOne (λ u, strict_eq (User.email u) (prop (body req) "email")) (users w)
         = Some user →
       comparePassword user (prop (body req) "password") = false →
       fails_with (snd (login_user w req)) 400
       ∧ ¬ issues_token (snd (login_user w req)))
  ∧ (∀ user,
       truthy (prop (body req) "email") = true →
       truthy (prop (body req) "password") = true →
       findOne (λ u, strict_eq (User.email u) (prop (body req) "email")) (users w)
         = Some user →
       comparePassword user (prop (body req) "password") = true →
       snd (login_user w req) = sendToken user 201 None)
  ∧ (truthy (prop (body req) "email") = false
     ∨ truthy (prop (body req) "password") = false →
     fails_with (snd (login_user w req)) 400)
  ∧ fst (login_user w req) = w.
Proof.
  unfold login_user. split; [| split; [| split; [| split]]].
  - intros ->. destruct (_ || _); by eexists.
  - intros user -> ->. split.
    + destruct (_ || _); by eexists.
    + intros (u & c & d & E). destruct (_ || _); discriminate.
  - intros user -> -> -> ->. reflexivity.
  - intros [-> | ->]; rewrite ?orb_true_r; by eexists.
  - repeat case_match; reflexivity.
Qed.

End Properties.

(** * The handlers on the sample shop *)

#[local] Existing Instance reference.

(** C6, at a concrete request: Carol registers without gender. *)
Lemma create_user_missing_field_witness :
  "gender" ∈ required_fields
  ∧ truthy (prop (body no_gender_req) "gender") = false
  ∧ fails_with (snd (create_user shop no_gender_req)) 400
  ∧ upload_deleted (fst (create_user shop no_gender_req)) no_gender_req
  ∧ same_records shop (fst (create_user shop no_gender_req)).
Proof.
  assert (Hk : "gender" ∈ required_fields)
    by (unfold required_fields; repeat (first [apply list_elem_of_here | apply list_elem_of_further])).
  assert (Hf : truthy (prop (body no_gender_req) "gender") = false)
    by (vm_compute; reflexivity).
  split; [exact Hk |]. split; [exact Hf |].
  exact (create_user_missing_field shop no_gender_req "gender" Hk Hf).
Defined.

(** Bob was referred by Alice: the same code applied to him again. *)
Example apply_referral_second_time :
  apply_referral shop second_code_req
  = (shop, next_ErrorHandler "You have already used a referral code" (Some 400%Z)).
Proof. vm_compute. reflexivity. Qed.

(** Alice was referred by nobody: the code of Bob sets her referredBy. *)
Example apply_referral_first_time :
  let req := mkRequest {[ "referralCode" := JString "Bob1"; "userId" := JString alice_id ]}
                     None "" "" in
  referredBy_of shop alice_id = None
  ∧ referredBy_of (fst (apply_referral shop req)) alice_id = Some (mkObjectId bob_id)
  ∧ snd (apply_referral shop req)
    = res_status_json 200 (body_message true "Referral code applied successfully").
Proof. vm_compute. repeat split. Qed.

(** C1, at a concrete user: Bob, referred by Alice. *)
Lemma referredBy_set_at_most_once_witness :
  referredBy_of shop bob_id = Some (mkObjectId alice_id)
  ∧ (∀ ops, referredBy_of (run shop ops) bob_id = Some (mkObjectId alice_id))
  ∧ (∀ req, prop (body req) "userId" = JString bob_id →
            fails_with (snd (apply_referral shop req)) 400
            ∧ fst (apply_referral shop req) = shop).
Proof.
  split; [reflexivity |].
  apply (referredBy_set_at_most_once shop bob_id (mkObjectId alice_id)). reflexivity.
Defined.

(** C2, at a concrete request: Alice applies her own code. *)
Lemma apply_referral_own_code_witness :
  let referral := ReferralCode.mk "Alice0" (mkObjectId alice_id) (JString "Alice") [] in
  findOne (λ r, strict_eq (JString (ReferralCode.code r))
                          (prop (body own_code_req) "referralCode"))
          (referralCodes shop) = Some referral
  ∧ prop (body own_code_req) "userId" = JString (toString (ReferralCode.userId referral))
  ∧ fails_with (snd (apply_referral shop own_code_req)) 400
  ∧ fst (apply_referral shop own_code_req) = shop.
Proof.
  intros referral.
  assert (Hfind : findOne (λ r, strict_eq (JString (ReferralCode.code r))
                                  (prop (body own_code_req) "referralCode"))
                    (referralCodes shop) = Some referral)
    by (vm_compute; reflexivity).
  assert (Hself : prop (body own_code_req) "userId"
                  = JString (toString (ReferralCode.userId referral)))
    by (vm_compute; reflexivity).
  split; [exact Hfind |]. split; [exact Hself |].
  exact (apply_referral_own_code shop own_code_req referral Hfind Hself).
Defined.

(** C3. Carol registers with a referral code that nobody owns and a photo:
    the answer is a 400 error, and the photo is still in the upload
    directory. *)
Theorem create_user_invalid_referral_keeps_upload :
  (∀ k, k ∈ required_fields → truthy (prop (body bogus_code_req) k) = true)
  ∧ file bogus_code_req = Some "carol.png"
  ∧ verifyReferralCode shop (prop (body bogus_code_req) "inputReferralCode") = None
  ∧ fails_with (snd (create_user shop bogus_code_req)) 400
  ∧ "uploads/carol.png" ∈ files (fst (create_user shop bogus_code_req))
  ∧ ¬ upload_deleted (fst (create_user shop bogus_code_req)) bogus_code_req.
Proof.
  assert (Hreq : ∀ k, k ∈ required_fields →
                      truthy (prop (body bogus_code_req) k) = true).
  { intros k Hk. unfold required_fields in Hk.
    repeat (apply elem_of_cons in Hk as [-> | Hk]; [vm_compute; reflexivity |]).
    by apply elem_of_nil in Hk. }
  assert (Hv : verifyReferralCode shop (prop (body bogus_code_req) "inputReferralCode")
               = None) by (vm_compute; reflexivity).
  assert (Hin : "uploads/carol.png" ∈ files shop)
    by (unfold shop; simpl; apply elem_of_union_r; by apply elem_of_singleton).
  rewrite (create_user_invalid_referral shop bogus_code_req Hreq eq_refl Hv). simpl.
  split; [exact Hreq |]. split; [reflexivity |]. split; [exact Hv |].
  split; [by eexists |]. split; [exact Hin |].
  intros Hdel. exact (Hdel "carol.png" eq_refl Hin).
Qed.

(** C4. Carol registers with the PAN card abcde1234f, which in upper case
    is the stored PAN card of Alice, with a referral code that nobody owns
    and with a photo: the answer is a 400 error and no record is created,
    but the photo is still in the upload directory.  The route returns on
    the referral code before it reaches the cleanup of its PAN card
    check. *)
Theorem create_user_known_panCard_keeps_upload :
  toUpperCase "abcde1234f" = "ABCDE1234F"
  ∧ findOne (λ u, strict_eq (User.panCard u) (JString (toUpperCase "abcde1234f")))
            (users shop) = Some alice
  ∧ prop (body known_pan_req) "panCard" = JString "abcde1234f"
  ∧ file known_pan_req = Some "carol.png"
  ∧ fails_with (snd (create_user shop known_pan_req)) 400
  ∧ same_records shop (fst (create_user shop known_pan_req))
  ∧ "uploads/carol.png" ∈ files (fst (create_user shop known_pan_req))
  ∧ ¬ upload_deleted (fst (create_user shop known_pan_req)) known_pan_req.
Proof.
  assert (Hreq : ∀ k, k ∈ required_fields →
                      truthy (prop (body known_pan_req) k) = true).
  { intros k Hk. unfold required_fields in Hk.
    repeat (apply elem_of_cons in Hk as [-> | Hk]; [vm_compute; reflexivity |]).
    by apply elem_of_nil in Hk. }
  assert (Hv : verifyReferralCode shop (prop (body known_pan_req) "inputReferralCode")
               = None) by (vm_compute; reflexivity).
  assert (Hin : "uploads/carol.png" ∈ files shop)
    by (unfold shop; simpl; apply elem_of_union_r; by apply elem_of_singleton).
  rewrite (create_user_invalid_referral shop known_pan_req Hreq eq_refl Hv). simpl.
  split; [reflexivity |]. split; [reflexivity |]. split; [reflexivity |].
  split; [reflexivity |]. split; [by eexists |]. split; [by split |].
  split; [exact Hin |].
  intros Hdel. exact (Hdel "carol.png" eq_refl Hin).
Qed.

(** The three outcomes of the address route, on the addresses of Alice. *)
Example update_user_addresses_second_home :
  update_user_addresses shop second_home_req
  = (shop, next_ErrorHandler "Home address already exists" None).
Proof. vm_compute. reflexivity. Qed.

Example update_user_addresses_edit :
  (λ u, User.addresses u) <$> User.findById
      (users (fst (update_user_addresses shop edit_a1_req))) (JString alice_id)
  = Some [ {[ "_id" := JString "a1"; "addressType" := JString "Work";
              "city" := JString "Pune"; "zipCode" := JNum 400001 ]} ].
Proof. vm_compute. reflexivity. Qed.

Example update_user_addresses_append :
  (λ u, User.addresses u) <$> User.findById
      (users (fst (update_user_addresses shop office_req))) (JString alice_id)
  = Some [ {[ "_id" := JString "a1"; "addressType" := JString "Home";
              "city" := JString "Pune" ]};
           {[ "_id" := JString "a2"; "addressType" := JString "Office" ]} ].
Proof. vm_compute. reflexivity. Qed.


(** The two refusals of the password route, on the password of Alice. *)
Example update_user_password_wrong_old :
  update_user_password shop wrong_old_req
  = (shop, next_ErrorHandler "Old password is incorrect!" (Some 400%Z)).
Proof. vm_compute. reflexivity. Qed.

Example update_user_password_mismatch :
  update_user_password shop mismatch_req
  = (shop, next_ErrorHandler "Password doesn't matched with each other!" (Some 400%Z)).
Proof. vm_compute. reflexivity. Qed.

(** C7, at a concrete request: Alice changes her password to n3w. *)
Lemma update_user_password_cases_witness :
  User.findById (users shop) (JString (user_id change_req)) = Some alice
  ∧ snd (update_user_password shop change_req)
    = res_status_json 200 (body_message true "Password updated successfully!")
  ∧ ∃ user',
      User.findById (users (fst (update_user_password shop change_req)))
                    (JString (user_id change_req)) = Some user'
      ∧ User.password user' = JString "n3w".
Proof.
  split; [reflexivity |].
  destruct (update_user_password_cases shop change_req alice eq_refl) as (_ & _ & Hok).
  exact (Hok eq_refl eq_refl).
Defined.

(** Login refused: an email nobody has, and a wrong password for Alice. *)
Example login_user_unknown_email :
  snd (login_user shop
         (mkRequest {[ "email" := JString "eve@shop.in"; "password" := JString "x" ]}
                  None "" ""))
  = next_ErrorHandler "User doesn't exists!" (Some 400%Z).
Proof. vm_compute. reflexivity. Qed.

Example login_user_wrong_password :
  snd (login_user shop
         (mkRequest {[ "email" := JString "alice@shop.in"; "password" := JString "x" ]}
                  None "" ""))
  = next_ErrorHandler "Please provide the correct information" (Some 400%Z).
Proof. vm_compute. reflexivity. Qed.

(** C8, at a concrete request: Alice logs in. *)
Lemma login_user_cases_witness :
  truthy (prop (body login_req) "email") = true
  ∧ truthy (prop (body login_req) "password") = true
  ∧ findOne (λ u, strict_eq (User.email u) (prop (body login_req) "email")) (users shop)
    = Some alice
  ∧ comparePassword alice (prop (body login_req) "password") = true
  ∧ snd (login_user shop login_req) = sendToken alice 201 None.
Proof.
  split; [reflexivity |]. split; [reflexivity |].
  split; [reflexivity |]. split; [reflexivity |].
  destruct (login_user_cases shop login_req) as (_ & _ & Hok & _).
  exact (Hok alice eq_refl eq_refl eq_refl eq_refl).
Defined.

(** C9, at a concrete request: a well-formed id that nobody has. *)
Lemma user_info_unknown_id_witness :
  is_hex24 (params_id nobody_req) = true
  ∧ User.findById (users shop)
      (JObjectId (mkObjectId (toLowerCase (params_id nobody_req)))) = None
  ∧ user_info shop nobody_req = (shop, res_status_json 201 (body_user true None)).
Proof.
  split; [reflexivity |]. split; [reflexivity |].
  exact (user_info_unknown_id shop nobody_req eq_refl eq_refl).
Defined.

(** C9 as first stated fails on an id that is not an ObjectId: no user of the
    shop has the id not-an-objectid, and the lookup is answered with a 500
    error, not with status 201 and a null user. *)
Lemma user_info_malformed_id_counterexample :
  (∀ u, u ∈ users shop → toString (User._id u) ≠ params_id malformed_req)
  ∧ fails_with (snd (user_info shop malformed_req)) 500
  ∧ snd (user_info shop malformed_req) ≠ res_status_json 201 (body_user true None).
Proof.
  split; [| split].
  - intros u Hu. unfold shop in Hu. cbn [users] in Hu.
    repeat (apply elem_of_cons in Hu as [-> | Hu]); [| | by apply elem_of_nil in Hu];
      vm_compute; discriminate.
  - apply user_info_malformed_id; [vm_compute; reflexivity | vm_compute; discriminate].
  - vm_compute. discriminate.
Qed.

(** * The remaining behaviour of the routes *)

Section Registration.
Context `{Externals}.

Lemma strict_eq_true a b : strict_eq a b = true → a = b.
Proof.
  destruct a, b; simpl; try discriminate; intros E; try reflexivity.
  - by apply Bool.eqb_prop in E as ->.
  - by apply Z.eqb_eq in E as ->.
  - by apply String.eqb_eq in E as ->.
Qed.

Lemma strict_eq_sym a b : strict_eq a b = strict_eq b a.
Proof.
  destruct a, b; simpl; try reflexivity.
  - by destruct b, b0.
  - apply Z.eqb_sym.
  - apply String.eqb_sym.
Qed.

Lemma findOne_None_app {A} (p : A → bool) (l l' : list A) :
  findOne p l = None → findOne p (l ++ l') = findOne p l'.
Proof.
  unfold findOne. induction l as [| y l IH]; simpl; [reflexivity |].
  destruct (p y); [discriminate | exact IH].
Qed.

Lemma findOne_None_elem {A} (p : A → bool) (l : list A) (x : A) :
  findOne p l = None → x ∈ l → p x = false.
Proof.
  unfold findOne. intros E Hx. apply list_elem_of_In in Hx.
  exact (find_none p l E x Hx).
Qed.

Lemma findOne_is_Some {A} (p : A → bool) (l : list A) (x : A) :
  x ∈ l → p x = true → is_Some (findOne p l).
Proof.
  intros Hx Hp. destruct (findOne p l) eqn:E; [by eexists |].
  rewrite (findOne_None_elem p l x E Hx) in Hp. discriminate.
Qed.

Lemma required_guard_false (b : gmap string jsval) :
  negb (truthy (prop b "name")) || negb (truthy (prop b "password"))
  || negb (truthy (prop b "phoneNumber")) || negb (truthy (prop b "panCard"))
  || negb (truthy (prop b "gender")) = false →
  ∀ k, k ∈ required_fields → truthy (prop b k) = true.
Proof.
  intros Hg k Hk. unfold required_fields in Hk.
  repeat (apply orb_false_iff in Hg as [Hg ?]).
  repeat (apply elem_of_cons in Hk as [-> | Hk]; [by apply negb_false_iff |]).
  by apply elem_of_nil in Hk.
Qed.

(** The tail of the registration route, from the PAN card lookup on. *)
Local Ltac pan_branches w req :=
  let pan := fresh "pan" in
  let Hpan := fresh "Hpan" in
  let Hdup := fresh "Hdup" in
  let E := fresh "E" in
  destruct (prop (body req) "panCard") as [| | | | pan | |] eqn:Hpan;
    try (destruct (file req); discriminate);
  destruct (findOne (λ u, strict_eq (User.panCard u) (JString (toUpperCase pan)))
                    (users w)) eqn:Hdup; [destruct (file req); discriminate |];
  simpl; intros E; inversion E; subst; clear E;
  destruct (file req); simpl; repeat split; eauto; discriminate.

Local Ltac email_branches w req :=
  let Hmail := fresh "Hmail" in
  let Hfind := fresh "Hfind" in
  destruct (truthy (prop (body req) "email")) eqn:Hmail; simpl;
  [ destruct (findOne (λ u, strict_eq (User.email u) (prop (body req) "email"))
                      (users w)) eqn:Hfind; simpl;
    [destruct (file req); discriminate | pan_branches w req]
  | pan_branches w req ].

(** What a token answer of the registration route tells about the request
    and the world. *)
Lemma create_user_token_inv w req user status data :
  snd (create_user w req) = sendToken user status data →
  let code := prop (body req) "inputReferralCode" in
  let referrer := if truthy code then verifyReferralCode w code else None in
  status = 201%Z
  ∧ user = User.mk (new_ObjectId w) (prop (body req) "name") (prop (body req) "email")
             (prop (body req) "password") (prop (body req) "phoneNumber")
             (prop (body req) "panCard") (prop (body req) "gender")
             (default "defaultAvatar.png" (file req)) []
             (generateReferralCode w (prop (body req) "name"))
             (referrerId <$> referrer)
  ∧ users (fst (create_user w req)) = users w ++ [user]
  ∧ files (fst (create_user w req)) = files w
  ∧ (truthy code = true → is_Some referrer)
  ∧ (truthy (prop (body req) "email") = true →
     findOne (λ u, strict_eq (User.email u) (prop (body req) "email")) (users w) = None)
  ∧ (∃ pan, prop (body req) "panCard" = JString pan
            ∧ findOne (λ u, strict_eq (User.panCard u) (JString (toUpperCase pan)))
                      (users w) = None)
  ∧ (referrer = None →
     referralCodes (fst (create_user w req))
     = referralCodes w ++ [ReferralCode.mk (User.referralCode user) (User._id user)
                                           (User.name user) []])
  ∧ (∀ k, k ∈ required_fields → truthy (prop (body req) k) = true).
Proof.
  unfold create_user, unlink_upload.
  destruct (_ || _ || _ || _ || _) eqn:Hguard; [destruct (file req); discriminate |].
  pose proof (required_guard_false _ Hguard) as Hreq. clear Hguard.
  destruct (truthy (prop (body req) "inputReferralCode")) eqn:Hcode.
  - destruct (verifyReferralCode w _) as [d |] eqn:Hv; [| simpl; discriminate].
    simpl. email_branches w req.
  - simpl. email_branches w req.
Qed.

(** X1. A registration whose email is already the email of a stored user
    is answered with a 400 error and creates no record; the upload is
    deleted unless the request was already refused for its referral
    code. *)
Theorem create_user_duplicate_email w req existing :
  truthy (prop (body req) "email") = true →
  findOne (λ u, strict_eq (User.email u) (prop (body req) "email")) (users w)
    = Some existing →
  fails_with (snd (create_user w req)) 400
  ∧ same_records w (fst (create_user w req))
  ∧ (truthy (prop (body req) "inputReferralCode") = false
     ∨ is_Some (verifyReferralCode w (prop (body req) "inputReferralCode")) →
     upload_deleted (fst (create_user w req)) req).
Proof.
  intros Hmail Hdup. unfold create_user. rewrite Hmail, Hdup.
  destruct (_ || _ || _ || _ || _); simpl.
  { split; [by eexists |].
    split; [apply unlink_upload_records | intros _; apply unlink_upload_deleted]. }
  destruct (truthy (prop (body req) "inputReferralCode")) eqn:Hcode; simpl.
  - destruct (verifyReferralCode w _) as [d |] eqn:Hv; simpl.
    + split; [by eexists |].
      split; [apply unlink_upload_records | intros _; apply unlink_upload_deleted].
    + split; [by eexists |]. split; [by split |].
      intros [[=] | [d [=]]].
  - split; [by eexists |].
    split; [apply unlink_upload_records | intros _; apply unlink_upload_deleted].
Qed.

(** The two outcomes of the registration route as embedded, where the
    store accepts every write: a token, or a 400 error from one of the
    checks. *)
Lemma create_user_outcome w req :
  (∃ user data,
     snd (create_user w req) = sendToken user 201 data
     ∧ users (fst (create_user w req)) = users w ++ [user]
     ∧ files (fst (create_user w req)) = files w)
  ∨ (fails_with (snd (create_user w req)) 400
     ∧ same_records w (fst (create_user w req))).
Proof.
  destruct (snd (create_user w req)) as [m c | c b | user c data] eqn:E.
  - right. revert E. unfold create_user, unlink_upload.
    repeat case_match; simpl; try discriminate;
      intros [= <- <-]; (split; [by eexists | by split]).
  - exfalso. revert E. unfold create_user.
    repeat case_match; simpl; discriminate.
  - left. destruct (create_user_token_inv w req user c data E)
      as (-> & _ & Hu & Hf & _).
    by exists user, data.
Qed.

(** X3. What a successful registration creates.  The new user carries the
    id the store hands out, no address, and as referredBy the referrer
    the verification resolved the supplied code to (null when no code was
    supplied); a supplied code that does not verify never leads to
    success.  When no code was supplied, exactly one referral record is
    appended: it has the code stored on the user, is owned by the new user
    and has no usage. *)
Theorem create_user_creates_user_and_code w req user status data :
  snd (create_user w req) = sendToken user status data →
  User._id user = new_ObjectId w
  ∧ User.addresses user = []
  ∧ (truthy (prop (body req) "inputReferralCode") = true →
     ∃ d, verifyReferralCode w (prop (body req) "inputReferralCode") = Some d
          ∧ User.referredBy user = Some (referrerId d))
  ∧ (truthy (prop (body req) "inputReferralCode") = false →
     User.referredBy user = None
     ∧ referralCodes (fst (create_user w req))
       = referralCodes w ++ [ReferralCode.mk (User.referralCode user) (User._id user)
                                             (User.name user) []]).
Proof.
  intros E.
  destruct (create_user_token_inv w req user status data E)
    as (_ & Hu & _ & _ & Hsome & _ & _ & Hcodes & _).
  split; [by rewrite Hu |]. split; [by rewrite Hu |]. split.
  - intros Hcode. rewrite Hcode in Hsome, Hu.
    destruct (Hsome eq_refl) as [d Hd]. exists d. split; [exact Hd |].
    rewrite Hu, Hd. reflexivity.
  - intros Hcode. rewrite Hcode in Hcodes, Hu. split; [by rewrite Hu |].
    by apply Hcodes.
Qed.

(** X4. Registration keeps the supplied emails of the stored users
    pairwise different. *)
Theorem create_user_keeps_emails_unique w req :
  emails_unique (users w) → emails_unique (users (fst (create_user w req))).
Proof.
  intros Huniq.
  destruct (create_user_outcome w req)
    as [(user & data & E & Hu & _) | (_ & Hsame & _)]; [| by rewrite Hsame].
  destruct (create_user_token_inv w req user _ data E)
    as (_ & Huser & _ & _ & _ & Hfree & _).
  assert (Hmail : User.email user = prop (body req) "email") by (by rewrite Huser).
  rewrite Hu. intros i j a b Hi Hj Ht Heq.
  apply lookup_app_Some in Hi as [Hi | [Hi Hi']];
    apply lookup_app_Some in Hj as [Hj | [Hj Hj']].
  - by apply (Huniq i j a b).
  - apply list_lookup_singleton_Some in Hj' as [_ <-].
    rewrite Hmail in Heq.
    assert (Ht' : truthy (prop (body req) "email") = true)
      by (rewrite <- (strict_eq_true _ _ Heq); exact Ht).
    assert (Ha : a ∈ users w) by (by eapply list_elem_of_lookup_2).
    pose proof (findOne_None_elem _ _ a (Hfree Ht') Ha) as Hno. simpl in Hno.
    rewrite Heq in Hno. discriminate.
  - apply list_lookup_singleton_Some in Hi' as [_ <-].
    assert (Hb : b ∈ users w) by (by eapply list_elem_of_lookup_2).
    rewrite Hmail in Ht, Heq.
    pose proof (findOne_None_elem _ _ b (Hfree Ht) Hb) as Hno. simpl in Hno.
    rewrite strict_eq_sym, Heq in Hno. discriminate.
  - apply list_lookup_singleton_Some in Hi' as [Hi' _].
    apply list_lookup_singleton_Some in Hj' as [Hj' _]. lia.
Qed.

(** X5. After a registration with a PAN card written in upper case, a
    registration with the same PAN card in any case, written in ASCII
    characters, is answered with a 400 error and creates no record. *)
Theorem create_user_refuses_known_upper_panCard w req1 req2 pan pan2 user status data :
  snd (create_user w req1) = sendToken user status data →
  prop (body req1) "panCard" = JString pan →
  toUpperCase pan = pan →
  prop (body req2) "panCard" = JString pan2 →
  is_ascii pan2 = true →
  toUpperCase pan2 = pan →
  fails_with (snd (create_user (fst (create_user w req1)) req2)) 400
  ∧ same_records (fst (create_user w req1))
                 (fst (create_user (fst (create_user w req1)) req2)).
Proof.
  intros E Hpan Hup Hpan2 _ Hup2.
  destruct (create_user_token_inv w req1 user status data E)
    as (_ & Huser & Hu & _).
  assert (Hin : user ∈ users (fst (create_user w req1)))
    by (rewrite Hu; apply elem_of_app; right; apply list_elem_of_here).
  destruct (findOne_is_Some
              (λ u, strict_eq (User.panCard u) (JString (toUpperCase pan2)))
              _ user Hin) as [existing Hex].
  { rewrite Huser, Hpan, Hup2. simpl. apply String.eqb_refl. }
  destruct (create_user_duplicate_panCard _ req2 pan2 existing Hpan2 Hex)
    as (Hfail & Hsame & _).
  by split.
Qed.

(** X6. Round trip of registration and session lookup: when the id the
    store hands out is not yet taken, the getuser route in the session of
    the new user answers with status 200 and the record the registration
    reported, without its password. *)
Theorem getuser_after_create_user w req user status data req' :
  snd (create_user w req) = sendToken user status data →
  User.findById (users w) (JString (toString (new_ObjectId w))) = None →
  user_id req' = toString (User._id user) →
  getuser (fst (create_user w req)) req'
  = (fst (create_user w req),
     res_status_json 200 (body_user true (Some (select_default user)))).
Proof.
  intros E Hfresh Hid.
  destruct (create_user_token_inv w req user status data E)
    as (_ & Huser & Hu & _).
  assert (Hnew : User._id user = new_ObjectId w) by (by rewrite Huser).
  assert (Hfind : User.findById (users (fst (create_user w req)))
                                (JString (user_id req')) = Some user).
  { rewrite Hid, Hu, Hnew. simpl in *.
    rewrite (findOne_None_app _ _ _ Hfresh). simpl.
    by rewrite Hnew, String.eqb_refl. }
  unfold getuser. by rewrite Hfind.
Qed.

(** X7. Round trip of registration and login: after a registration with a
    non-empty email string, a login with that email and the registered
    password, which the password comparison accepts for the new user,
    issues a token for the new user with status 201. *)
Theorem login_after_create_user w req user status data mail req' :
  snd (create_user w req) = sendToken user status data →
  prop (body req) "email" = JString mail →
  mail ≠ "" →
  comparePassword user (prop (body req) "password") = true →
  prop (body req') "email" = JString mail →
  prop (body req') "password" = prop (body req) "password" →
  snd (login_user (fst (create_user w req)) req') = sendToken user 201 None.
Proof.
  intros E Hmail Hne Hpw Hmail' Hpw'.
  destruct (create_user_token_inv w req user status data E)
    as (_ & Huser & Hu & _ & _ & Hfree & _ & _ & Hreq).
  assert (Ht : truthy (JString mail) = true).
  { simpl. apply negb_true_iff. by apply String.eqb_neq. }
  rewrite Hmail in Hfree. specialize (Hfree Ht).
  assert (Htp : truthy (prop (body req) "password") = true).
  { apply Hreq. unfold required_fields.
    apply list_elem_of_further, list_elem_of_here. }
  assert (Hfind : findOne (λ u, strict_eq (User.email u) (JString mail))
                    (users (fst (create_user w req))) = Some user).
  { rewrite Hu, (findOne_None_app _ _ _ Hfree). simpl.
    rewrite Huser. simpl. rewrite Hmail. simpl. by rewrite String.eqb_refl. }
  unfold login_user. rewrite Hmail', Hpw', Ht, Htp, Hfind, Hpw. reflexivity.
Qed.

End Registration.

(** ** Writes to the user collection *)

Section Store.

Lemma findOne_elem {A} (p : A → bool) (l : list A) (x : A) :
  findOne p l = Some x → x ∈ l ∧ p x = true.
Proof.
  unfold findOne. intros E. apply find_some in E as [Hin Hp].
  split; [by apply list_elem_of_In | exact Hp].
Qed.

Lemma findById_elem l s u :
  User.findById l (JString s) = Some u → u ∈ l ∧ toString (User._id u) = s.
Proof.
  simpl. intros E. apply findOne_elem in E as [Hin Hp].
  split; [exact Hin | by apply String.eqb_eq].
Qed.

Lemma ObjectId_eq (a b : ObjectId) : toString a = toString b → a = b.
Proof. destruct a, b. simpl. by intros ->. Qed.

(** Saving the document a lookup returned changes nothing. *)
Lemma save_found l s u :
  User.findById l (JString s) = Some u → User.save u l = l.
Proof.
  simpl. unfold findOne. induction l as [| v l IH]; simpl; [reflexivity |].
  destruct (String.eqb (toString (User._id v)) s) eqn:E.
  - intros [= ->]. by rewrite String.eqb_refl.
  - intros Hfind. pose proof Hfind as Hu. apply find_some in Hu as [_ Hu].
    apply String.eqb_eq in Hu. rewrite Hu, E. by rewrite IH.
Qed.

Lemma save_save u1 u2 l :
  User._id u1 = User._id u2 → User.save u2 (User.save u1 l) = User.save u2 l.
Proof.
  intros Hid. induction l as [| v l IH]; simpl; [reflexivity |].
  rewrite Hid.
  destruct (String.eqb (toString (User._id v)) (toString (User._id u2))) eqn:E; simpl.
  - by rewrite Hid, String.eqb_refl.
  - by rewrite E, IH.
Qed.

(** A save keeps the identifiers of the collection, in order. *)
Lemma save_ids u l :
  (λ v, toString (User._id v)) <$> User.save u l = (λ v, toString (User._id v)) <$> l.
Proof.
  induction l as [| v l IH]; csimpl; [reflexivity |].
  destruct (String.eqb (toString (User._id v)) (toString (User._id u))) eqn:E; csimpl.
  - apply String.eqb_eq in E. by rewrite E.
  - by rewrite IH.
Qed.

(** With unique identifiers, a save that keeps the value of [f] on the
    saved document keeps it on the whole collection. *)
Lemma save_fmap {B} (f : User.t → B) u u' l :
  NoDup ((λ v, toString (User._id v)) <$> l) →
  u ∈ l → User._id u' = User._id u → f u' = f u →
  f <$> User.save u' l = f <$> l.
Proof.
  intros Hnd Hin Hid Hf. induction l as [| v l IH]; csimpl; [reflexivity |].
  apply NoDup_cons in Hnd as [Hv Hnd]. rewrite Hid.
  destruct (String.eqb (toString (User._id v)) (toString (User._id u))) eqn:E; csimpl.
  - apply String.eqb_eq in E. apply elem_of_cons in Hin as [-> | Hin].
    + by rewrite Hf.
    + destruct Hv. rewrite E. apply list_elem_of_fmap. by exists u.
  - apply elem_of_cons in Hin as [-> | Hin].
    + by rewrite String.eqb_refl in E.
    + by rewrite IH.
Qed.

Lemma findByIdAndDelete_other l id id' :
  id' ≠ id →
  User.findById (findByIdAndDelete l id) (JString id') = User.findById l (JString id').
Proof.
  intros Hne. simpl. unfold findOne.
  induction l as [| v l IH]; simpl; [reflexivity |].
  destruct (String.eqb (toString (User._id v)) id) eqn:E; simpl.
  - apply String.eqb_eq in E. rewrite E.
    by rewrite (proj2 (String.eqb_neq id id')).
  - destruct (String.eqb (toString (User._id v)) id'); [reflexivity | exact IH].
Qed.

Lemma findByIdAndDelete_gone l id :
  NoDup ((λ v, toString (User._id v)) <$> l) →
  User.findById (findByIdAndDelete l id) (JString id) = None.
Proof.
  simpl. unfold findOne. induction l as [| v l IH]; simpl; [reflexivity |].
  intros Hnd. apply NoDup_cons in Hnd as [Hv Hnd].
  destruct (String.eqb (toString (User._id v)) id) eqn:E; simpl.
  - apply String.eqb_eq in E. destruct (find _ l) as [u |] eqn:Hfind; [| reflexivity].
    apply find_some in Hfind as [Hin Hu]. apply String.eqb_eq in Hu.
    destruct Hv. rewrite E, <- Hu. apply list_elem_of_fmap.
    exists u. split; [reflexivity | by apply list_elem_of_In].
  - rewrite E. by apply IH.
Qed.

Lemma findByIdAndDelete_length l id u :
  User.findById l (JString id) = Some u →
  S (length (findByIdAndDelete l id)) = length l.
Proof.
  simpl. unfold findOne. induction l as [| v l IH]; simpl; [discriminate |].
  destruct (String.eqb (toString (User._id v)) id); [reflexivity |].
  intros Hfind. simpl. by rewrite IH.
Qed.

End Store.

(** ** Referral attribution and the footprint of the routes *)

Section Routes.
Context `{Externals}.

(** X8. Apply-referral, when it goes through: the code resolves to a record
    of another user and the target exists with a null referredBy.  The
    answer is the success message, the target is now referred by the owner
    of the code, and the record of every other user reads as before. *)
Theorem apply_referral_links_target w req referral id user :
  findOne (λ r, strict_eq (JString (ReferralCode.code r))
                          (prop (body req) "referralCode"))
          (referralCodes w) = Some referral →
  prop (body req) "userId" = JString id →
  toString (ReferralCode.userId referral) ≠ id →
  User.findById (users w) (JString id) = Some user →
  User.referredBy user = None →
  snd (apply_referral w req)
    = res_status_json 200 (body_message true "Referral code applied successfully")
  ∧ referredBy_of (fst (apply_referral w req)) id = Some (ReferralCode.userId referral)
  ∧ (∀ id', id' ≠ id →
       User.findById (users (fst (apply_referral w req))) (JString id')
       = User.findById (users w) (JString id')).
Proof.
  intros Hcode Hid Hne Hu Hnone. unfold apply_referral, referredBy_of.
  rewrite Hcode, Hid. cbn [strict_eq].
  rewrite (proj2 (String.eqb_neq _ _) Hne), Hu, Hnone.
  unfold set_referralCodes, set_users. cbn [fst snd users].
  split; [reflexivity |]. split.
  - rewrite (findById_save_same user _ id _ Hu); reflexivity.
  - intros id' Hne'. apply findById_save_other. cbn [User.set_referredBy User._id].
    apply findById_elem in Hu as [_ ->]. by apply String.eqb_neq.
Qed.

Lemma dispatch_ids r w req :
  r ≠ create_user_route → r ≠ delete_user_route →
  ids (fst (dispatch r w req)) = ids w.
Proof.
  intros Hc Hd. unfold ids.
  destruct r; try congruence; simpl;
    unfold login_user, getuser, update_user_info, update_avatar,
      findByIdAndUpdate_avatar, update_user_addresses, delete_user_address,
      updateOne_pull, update_user_password, user_info, apply_referral;
    repeat case_match; simplify_eq; cbn [fst users set_users set_referralCodes];
    rewrite ?save_ids; reflexivity.
Qed.

(** X10. Only registration adds a user and only delete-user removes one:
    every other route leaves the identifiers of the stored users as they
    were, in the same order. *)
Theorem routes_keep_ids r w req :
  r ≠ create_user_route → r ≠ delete_user_route →
  ids (fst (dispatch r w req)) = ids w.
Proof. intros Hc Hd. exact (dispatch_ids r w req Hc Hd). Qed.

(** X11. Only registration and apply-referral write referral records:
    every other route leaves the referral collection as it was; delete-user
    in particular keeps the record of the user it removes. *)
Theorem routes_keep_referralCodes r w req :
  r ≠ create_user_route → r ≠ apply_referral_route →
  referralCodes (fst (dispatch r w req)) = referralCodes w.
Proof.
  intros Hc Ha.
  destruct r; try congruence; simpl;
    unfold login_user, getuser, update_user_info, update_avatar,
      findByIdAndUpdate_avatar, update_user_addresses, delete_user_address,
      updateOne_pull, update_user_password, user_info, delete_user;
    repeat case_match; simplify_eq; reflexivity.
Qed.

(** X12. Files are deleted by registration (the upload, on its error
    paths) and by the avatar route only; no route creates a file, and
    delete-user keeps the avatar of the user it removes. *)
Theorem routes_keep_files r w req :
  files (fst (dispatch r w req)) ⊆ files w
  ∧ (r ≠ create_user_route → r ≠ update_avatar_route →
     files (fst (dispatch r w req)) = files w).
Proof.
  split.
  - destruct r; simpl;
      unfold create_user, unlink_upload, login_user, getuser, update_user_info,
        update_avatar, unlinkSync, findByIdAndUpdate_avatar, update_user_addresses,
        delete_user_address, updateOne_pull, update_user_password, user_info,
        delete_user, apply_referral;
      repeat case_match; simplify_eq; cbn [fst files set_users set_referralCodes];
      first [done | by apply subseteq_difference_l].
  - intros Hc Ha.
    destruct r; try congruence; simpl;
      unfold login_user, getuser, update_user_info, update_user_addresses,
        delete_user_address, updateOne_pull, update_user_password, user_info,
        delete_user, apply_referral;
      repeat case_match; simplify_eq; reflexivity.
Qed.

End Routes.

(** ** One address per type *)

Section Addresses.
Context `{Externals}.

Lemma elem_of_save x u l : x ∈ User.save u l → x = u ∨ x ∈ l.
Proof.
  induction l as [| v l IH]; simpl; [intros Hx; by apply elem_of_nil in Hx |].
  destruct (String.eqb _ _).
  - intros Hx. apply elem_of_cons in Hx as [-> | Hx]; [by left |].
    right. by apply list_elem_of_further.
  - intros Hx. apply elem_of_cons in Hx as [-> | Hx].
    + right. apply list_elem_of_here.
    + destruct (IH Hx) as [-> | Hin]; [by left |].
      right. by apply list_elem_of_further.
Qed.

Lemma elem_of_findByIdAndDelete x l id : x ∈ findByIdAndDelete l id → x ∈ l.
Proof.
  induction l as [| v l IH]; simpl; [done |].
  destruct (String.eqb _ _).
  - intros Hx. by apply list_elem_of_further.
  - intros Hx. apply elem_of_cons in Hx as [-> | Hx].
    + apply list_elem_of_here.
    + by apply list_elem_of_further, IH.
Qed.

Lemma one_per_type_filter (p : gmap string jsval → bool) l :
  one_per_type l → one_per_type (List.filter p l).
Proof.
  induction l as [| a l IH]; simpl; [done |].
  intros [Ha Hl]. destruct (p a); simpl; [| by apply IH].
  split; [| by apply IH].
  intros b Hb. apply Ha. apply list_elem_of_In in Hb.
  apply filter_In in Hb as [Hb _]. by apply list_elem_of_In.
Qed.

Lemma one_per_type_app l x :
  one_per_type l →
  (∀ a, a ∈ l → strict_eq (prop a "addressType") (prop x "addressType") = false) →
  one_per_type (l ++ [x]).
Proof.
  induction l as [| a l IH]; simpl.
  - intros _ _. split; [| done]. intros b Hb. by apply elem_of_nil in Hb.
  - intros [Ha Hl] Hx. split.
    + intros b Hb. apply elem_of_app in Hb as [Hb | Hb]; [by apply Ha |].
      apply list_elem_of_singleton in Hb as ->. apply Hx, list_elem_of_here.
    + apply IH; [exact Hl |]. intros b Hb. by apply Hx, list_elem_of_further.
Qed.

(** Replacing an address keeps the types apart when the new address has
    the type of the old one, or a type no address of the list has. *)
Lemma one_per_type_insert l i x m :
  one_per_type l → l !! i = Some x →
  prop m "addressType" = prop x "addressType"
  ∨ (∀ a, a ∈ l → strict_eq (prop a "addressType") (prop m "addressType") = false) →
  one_per_type (<[i := m]> l).
Proof.
  revert i. induction l as [| a l IH]; intros i Hl Hi Hm; [done |].
  destruct Hl as [Ha Hl]. destruct i as [| i]; simpl in *.
  - injection Hi as ->. split; [| exact Hl].
    intros b Hb. destruct Hm as [-> | Hm]; [by apply Ha |].
    rewrite strict_eq_sym. by apply Hm, list_elem_of_further.
  - split.
    + intros b Hb. apply list_elem_of_lookup in Hb as [j Hj].
      destruct (decide (j = i)) as [-> | Hne].
      * rewrite list_lookup_insert_eq in Hj by (by eapply lookup_lt_Some).
        injection Hj as <-. destruct Hm as [-> | Hm].
        -- apply Ha. by eapply list_elem_of_lookup_2.
        -- apply Hm, list_elem_of_here.
      * rewrite list_lookup_insert_ne in Hj by done.
        apply Ha. by eapply list_elem_of_lookup_2.
    + apply (IH i Hl Hi). destruct Hm as [Hm | Hm]; [by left | right].
      intros b Hb. by apply Hm, list_elem_of_further.
Qed.

Lemma Object_assign_addressType (x b : gmap string jsval) :
  prop (Object_assign x b) "addressType" = prop x "addressType"
  ∨ prop (Object_assign x b) "addressType" = prop b "addressType".
Proof.
  unfold prop, Object_assign. rewrite lookup_union.
  destruct (b !! "addressType"), (x !! "addressType"); simpl; auto.
Qed.

(** The address array the address route saves. *)
Lemma update_user_addresses_one_per_type (req : Request) l :
  one_per_type l →
  list_find (λ address, strict_eq (prop address "addressType")
                          (prop (body req) "addressType") = true) l = None →
  one_per_type
    match list_find (λ address, strict_eq (prop address "_id")
                                  (prop (body req) "_id") = true) l with
    | Some (i, existsAddress) => <[i := Object_assign existsAddress (body req)]> l
    | None => l ++ [body req]
    end.
Proof.
  intros Hl Hnone. apply list_find_None in Hnone. rewrite Forall_forall in Hnone.
  assert (Hfree : ∀ a, a ∈ l →
            strict_eq (prop a "addressType") (prop (body req) "addressType") = false).
  { intros a Ha. specialize (Hnone a Ha). by destruct (strict_eq _ _). }
  destruct (list_find _ l) as [[i x] |] eqn:E.
  - apply list_find_Some in E as (Hi & _ & _).
    apply (one_per_type_insert l i x _ Hl Hi).
    destruct (Object_assign_addressType x (body req)) as [-> | ->]; [by left |].
    by right.
  - by apply one_per_type_app.
Qed.

Lemma dispatch_keeps_addresses_ok r w req :
  addresses_ok w → addresses_ok (fst (dispatch r w req)).
Proof.
  intros Hok. unfold addresses_ok in *. destruct r; simpl.
  - destruct (create_user_outcome w req)
      as [(user & data & E & -> & _) | (_ & -> & _)]; [| exact Hok].
    intros u Hu. apply elem_of_app in Hu as [Hu | Hu]; [by apply Hok |].
    apply list_elem_of_singleton in Hu as ->.
    destruct (create_user_token_inv w req user _ data E) as (_ & -> & _). done.
  - unfold login_user. repeat case_match; exact Hok.
  - unfold getuser. repeat case_match; exact Hok.
  - unfold update_user_info.
    destruct (findOne _ (users w)) as [user |] eqn:Hfind; [| exact Hok].
    destruct (negb _); [exact Hok |]. cbn [fst users set_users].
    intros u Hu. apply elem_of_save in Hu as [-> | Hu]; [| by apply Hok].
    apply findOne_elem in Hfind as [Hin _]. by apply (Hok user).
  - unfold update_avatar, findByIdAndUpdate_avatar.
    destruct (User.findById (users w) _) as [user |] eqn:Hfind; [| exact Hok].
    destruct (unlinkSync _ _); [exact Hok |].
    destruct (file req); [| exact Hok]. cbn [users].
    rewrite Hfind. cbn [fst users set_users].
    intros u Hu. apply elem_of_save in Hu as [-> | Hu]; [| by apply Hok].
    apply findById_elem in Hfind as [Hin _]. by apply (Hok user).
  - unfold update_user_addresses.
    destruct (User.findById (users w) _) as [user |] eqn:Hfind; [| exact Hok].
    destruct (list_find _ (User.addresses user)) as [[i x] |] eqn:Htype; [exact Hok |].
    cbn [fst users set_users].
    intros u Hu. apply elem_of_save in Hu as [-> | Hu]; [| by apply Hok].
    apply findById_elem in Hfind as [Hin _].
    apply update_user_addresses_one_per_type; [by apply Hok | exact Htype].
  - unfold delete_user_address, updateOne_pull. cbn [fst users set_users].
    destruct (User.findById (users w) _) as [user |] eqn:Hfind; [| exact Hok].
    intros u Hu. apply elem_of_save in Hu as [-> | Hu]; [| by apply Hok].
    apply findById_elem in Hfind as [Hin _].
    apply one_per_type_filter. by apply Hok.
  - unfold update_user_password.
    destruct (User.findById (users w) _) as [user |] eqn:Hfind; [| exact Hok].
    repeat (destruct (negb _); [exact Hok |]). cbn [fst users set_users].
    intros u Hu. apply elem_of_save in Hu as [-> | Hu]; [| by apply Hok].
    apply findById_elem in Hfind as [Hin _]. by apply (Hok user).
  - unfold user_info. destruct (castObjectId _); exact Hok.
  - unfold delete_user. destruct (User.findById _ _); [| exact Hok].
    cbn [fst users set_users].
    intros u Hu. by apply Hok, (elem_of_findByIdAndDelete u _ (params_id req)).
  - unfold apply_referral. repeat case_match; try exact Hok.
    cbn [fst users set_users set_referralCodes].
    intros u Hu. apply elem_of_save in Hu as [-> | Hu]; [| by apply Hok].
    match goal with
    | Hf : User.findById _ _ = Some ?user |- _ =>
        apply findById_Some_id, findById_elem in Hf as [Hin _]; by apply (Hok user)
    end.
Qed.

(** X13. One address per type is an invariant of the controller: when no
    stored user has two addresses of one addressType, no history of
    requests to the routes leads to a world where one has. *)
Theorem serve_keeps_addresses_ok history w :
  addresses_ok w → addresses_ok (serve w history).
Proof.
  unfold serve. revert w.
  induction history as [| [r req] history IH]; intros w Hok; simpl; [exact Hok |].
  apply IH. by apply dispatch_keeps_addresses_ok.
Qed.

End Addresses.

(** ** The referral link across all routes *)

Section Links.
Context `{Externals}.

Lemma NoDup_findById l u :
  NoDup ((λ v, toString (User._id v)) <$> l) → u ∈ l →
  User.findById l (JString (toString (User._id u))) = Some u.
Proof.
  simpl. unfold findOne. induction l as [| v l IH]; csimpl.
  - intros _ Hu. by apply elem_of_nil in Hu.
  - intros Hnd Hu. apply NoDup_cons in Hnd as [Hv Hnd].
    destruct (String.eqb (toString (User._id v)) (toString (User._id u))) eqn:E.
    + apply elem_of_cons in Hu as [-> | Hu]; [reflexivity |].
      apply String.eqb_eq in E. destruct Hv. rewrite E.
      apply list_elem_of_fmap. by exists u.
    + apply elem_of_cons in Hu as [-> | Hu]; [by rewrite String.eqb_refl in E |].
      by apply IH.
Qed.

Lemma NoDup_findByIdAndDelete l id :
  NoDup ((λ v, toString (User._id v)) <$> l) →
  NoDup ((λ v, toString (User._id v)) <$> findByIdAndDelete l id).
Proof.
  induction l as [| v l IH]; csimpl; [done |].
  intros Hnd. apply NoDup_cons in Hnd as [Hv Hnd].
  destruct (String.eqb _ _); csimpl; [exact Hnd |].
  apply NoDup_cons. split; [| by apply IH].
  intros Hin. apply Hv. apply list_elem_of_fmap in Hin as (x & -> & Hx).
  apply list_elem_of_fmap. exists x. split; [reflexivity |].
  by eapply elem_of_findByIdAndDelete.
Qed.

(** A save of a document that the store returns for its own identifier,
    with the referral link untouched, keeps every non-null link. *)
Lemma save_keeps_referredBy l u u' id x :
  User.findById l (JString (toString (User._id u))) = Some u →
  User._id u' = User._id u → User.referredBy u' = User.referredBy u →
  User.findById l (JString id) ≫= User.referredBy = Some x →
  User.findById (User.save u' l) (JString id) ≫= User.referredBy = Some x.
Proof.
  intros Hu Hid Href Hx.
  destruct (String.eqb (toString (User._id u')) id) eqn:E.
  - apply String.eqb_eq in E. rewrite Hid in E. rewrite E in Hu.
    rewrite (findById_save_same u u' id l Hu Hid). rewrite Hu in Hx.
    simpl in *. by rewrite Href.
  - by rewrite findById_save_other.
Qed.

Lemma dispatch_keeps_referredBy r w req id x :
  NoDup (ids w) → r ≠ delete_user_route →
  referredBy_of w id = Some x →
  referredBy_of (fst (dispatch r w req)) id = Some x.
Proof.
  unfold ids, referredBy_of. intros Hnd Hr Hx. destruct r; try congruence; cbn [dispatch].
  - by apply create_user_keeps_referredBy.
  - unfold login_user. by repeat case_match.
  - unfold getuser. by repeat case_match.
  - unfold update_user_info.
    destruct (findOne _ (users w)) as [user |] eqn:Hfind; [| exact Hx].
    destruct (negb _); [exact Hx |]. cbn [fst users set_users].
    apply findOne_elem in Hfind as [Hin _].
    apply (save_keeps_referredBy _ user);
      [by apply NoDup_findById | reflexivity | reflexivity | exact Hx].
  - unfold update_avatar, findByIdAndUpdate_avatar.
    destruct (User.findById (users w) (JString (user_id req))) as [user |] eqn:Hfind; [| exact Hx].
    destruct (unlinkSync _ _); [exact Hx |].
    destruct (file req); [| exact Hx]. cbn [users].
    rewrite Hfind. cbn [fst users set_users].
    apply (save_keeps_referredBy _ user);
      [by eapply findById_Some_id | reflexivity | reflexivity | exact Hx].
  - unfold update_user_addresses.
    destruct (User.findById (users w) (JString (user_id req))) as [user |] eqn:Hfind; [| exact Hx].
    destruct (list_find _ (User.addresses user)) as [[i a] |]; [exact Hx |].
    cbn [fst users set_users].
    apply (save_keeps_referredBy _ user);
      [by eapply findById_Some_id | reflexivity | reflexivity | exact Hx].
  - unfold delete_user_address, updateOne_pull. cbn [fst users set_users].
    destruct (User.findById (users w) (JString (user_id req))) as [user |] eqn:Hfind; [| exact Hx].
    apply (save_keeps_referredBy _ user);
      [by eapply findById_Some_id | reflexivity | reflexivity | exact Hx].
  - unfold update_user_password.
    destruct (User.findById (users w) (JString (user_id req))) as [user |] eqn:Hfind; [| exact Hx].
    repeat (destruct (negb _); [exact Hx |]). cbn [fst users set_users].
    apply (save_keeps_referredBy _ user);
      [by eapply findById_Some_id | reflexivity | reflexivity | exact Hx].
  - unfold user_info. destruct (castObjectId _); exact Hx.
  - by apply apply_referral_keeps_referredBy.
Qed.

Lemma dispatch_keeps_NoDup r w req :
  NoDup (ids w) →
  (r = create_user_route →
   toString (new_ObjectId w) ∉ (λ u, toString (User._id u)) <$> users w) →
  NoDup (ids (fst (dispatch r w req))).
Proof.
  intros Hnd Hfresh.
  destruct r; try (rewrite dispatch_ids by discriminate; exact Hnd);
    cbn [dispatch]; unfold ids in *.
  - destruct (create_user_outcome w req)
      as [(user & data & E & -> & _) | (_ & -> & _)]; [| exact Hnd].
    destruct (create_user_token_inv w req user _ data E) as (_ & Hu & _).
    rewrite fmap_app. apply NoDup_app. split; [exact Hnd |]. split.
    + intros s Hs Hs'. apply list_elem_of_singleton in Hs'.
      rewrite Hs', Hu in Hs. by apply (Hfresh eq_refl).
    + apply NoDup_singleton.
  - unfold delete_user.
    destruct (User.findById _ _); [| exact Hnd].
    by apply NoDup_findByIdAndDelete.
Qed.

(** X14. The referral link is set at most once, across the whole router:
    in a store with unique identifiers where every registration is handed
    a fresh identifier, a non-null referredBy keeps its value through
    every history of requests that does not delete users. *)
Theorem serve_keeps_referredBy history w id x :
  NoDup (ids w) →
  ids_fresh w history →
  Forall (λ step, fst step ≠ delete_user_route) history →
  referredBy_of w id = Some x →
  referredBy_of (serve w history) id = Some x.
Proof.
  unfold serve. revert w.
  induction history as [| [r req] history IH]; intros w Hnd Hfresh Hdel Hx;
    simpl; [exact Hx |].
  destruct Hfresh as [Hnew Hfresh]. apply Forall_cons in Hdel as [Hr Hdel].
  apply IH; [by apply dispatch_keeps_NoDup | exact Hfresh | exact Hdel |].
  by apply dispatch_keeps_referredBy.
Qed.

(** X15. The routes that act for the session user (getuser, avatar,
    addresses, delete-address, password) leave the record of every other
    user as it was. *)
Theorem session_routes_touch_only_session_user r w req id :
  r ∈ [getuser_route; update_avatar_route; update_user_addresses_route;
       delete_user_address_route; update_user_password_route] →
  id ≠ user_id req →
  User.findById (users (fst (dispatch r w req))) (JString id)
  = User.findById (users w) (JString id).
Proof.
  intros Hr Hne.
  assert (Hsave : ∀ user user',
            User.findById (users w) (JString (user_id req)) = Some user →
            User._id user' = User._id user →
            User.findById (User.save user' (users w)) (JString id)
            = User.findById (users w) (JString id)).
  { intros user user' Hu Hid. apply findById_save_other.
    apply findById_elem in Hu as [_ Hu]. rewrite Hid, Hu.
    apply String.eqb_neq. congruence. }
  repeat (apply elem_of_cons in Hr as [-> | Hr]); [.. | by apply elem_of_nil in Hr];
    cbn [dispatch].
  - unfold getuser. by repeat case_match.
  - unfold update_avatar, findByIdAndUpdate_avatar.
    destruct (User.findById (users w) _) as [user |] eqn:Hfind; [| reflexivity].
    destruct (unlinkSync _ _); [reflexivity |].
    destruct (file req); [| reflexivity]. cbn [users].
    rewrite Hfind. cbn [fst users set_users]. by apply (Hsave user).
  - unfold update_user_addresses.
    destruct (User.findById (users w) _) as [user |] eqn:Hfind; [| reflexivity].
    destruct (list_find _ (User.addresses user)) as [[i a] |]; [reflexivity |].
    cbn [fst users set_users]. by apply (Hsave user).
  - unfold delete_user_address, updateOne_pull. cbn [fst users set_users].
    destruct (User.findById (users w) _) as [user |] eqn:Hfind; [| reflexivity].
    by apply (Hsave user).
  - unfold update_user_password.
    destruct (User.findById (users w) _) as [user |] eqn:Hfind; [| reflexivity].
    repeat (destruct (negb _); [reflexivity |]). cbn [fst users set_users].
    by apply (Hsave user).
Qed.

End Links.

(** ** Avatar, addresses, profile and deletion *)

Section Account_properties.
Context `{Externals}.

Lemma unlinkSync_missing fs path :
  path ∉ fs → ∃ message, unlinkSync fs path = inl message.
Proof.
  intros Hno. unfold unlinkSync. rewrite bool_decide_eq_false_2 by done. by eexists.
Qed.

Lemma unlinkSync_present fs path :
  path ∈ fs → unlinkSync fs path = inr (fs ∖ {[path]}).
Proof. intros Hin. unfold unlinkSync. by rewrite bool_decide_eq_true_2. Qed.

(** X16. Avatar update when the file of the current avatar is not on disk:
    the answer is a 500 error and nothing changes; the new avatar is not
    recorded. *)
Theorem update_avatar_missing_file w req user :
  User.findById (users w) (JString (user_id req)) = Some user →
  "uploads/" +:+ User.avatar user ∉ files w →
  fails_with (snd (update_avatar w req)) 500
  ∧ fst (update_avatar w req) = w.
Proof.
  intros Hu Hno. unfold update_avatar. rewrite Hu.
  destruct (unlinkSync_missing _ _ Hno) as [message ->].
  split; [by eexists | reflexivity].
Qed.


(** X18. Avatar update without an uploaded file: the file of the current
    avatar is deleted first, then the answer is a 500 error; the stored
    users are unchanged, so the avatar of the user names a file that is
    gone. *)
Theorem update_avatar_without_upload w req user :
  User.findById (users w) (JString (user_id req)) = Some user →
  "uploads/" +:+ User.avatar user ∈ files w →
  file req = None →
  fails_with (snd (update_avatar w req)) 500
  ∧ users (fst (update_avatar w req)) = users w
  ∧ "uploads/" +:+ User.avatar user ∉ files (fst (update_avatar w req)).
Proof.
  intros Hu Hin Hfile. unfold update_avatar.
  rewrite Hu, (unlinkSync_present _ _ Hin), Hfile. cbn [fst snd users files].
  split; [by eexists |]. split; [reflexivity |].
  apply not_elem_of_difference. right. by apply elem_of_singleton.
Qed.

(** X19. Two users with the same avatar file, as two users registered
    without a picture have: once one of them has changed the avatar, the
    avatar update of the other is answered with a 500 error. *)
Theorem update_avatar_shared_file w req1 req2 user1 user2 filename :
  User.findById (users w) (JString (user_id req1)) = Some user1 →
  User.findById (users w) (JString (user_id req2)) = Some user2 →
  user_id req1 ≠ user_id req2 →
  User.avatar user1 = User.avatar user2 →
  "uploads/" +:+ User.avatar user1 ∈ files w →
  file req1 = Some filename →
  fails_with (snd (update_avatar (fst (update_avatar w req1)) req2)) 500.
Proof.
  intros Hu1 Hu2 Hne Hsame Hin Hfile.
  assert (Hw1 : fst (update_avatar w req1)
                = mkWorld (User.save (set_avatar user1 filename) (users w))
                          (referralCodes w)
                          (files w ∖ {["uploads/" +:+ User.avatar user1]})).
  { unfold update_avatar, findByIdAndUpdate_avatar.
    rewrite Hu1, (unlinkSync_present _ _ Hin), Hfile. cbn [users]. by rewrite Hu1. }
  rewrite Hw1. unfold update_avatar at 1. cbn [users files].
  rewrite findById_save_other.
  - rewrite Hu2, <- Hsame.
    destruct (unlinkSync_missing (files w ∖ {["uploads/" +:+ User.avatar user1]})
                ("uploads/" +:+ User.avatar user1)) as [message ->]; [| by eexists].
    apply not_elem_of_difference. right. by apply elem_of_singleton.
  - apply findById_elem in Hu1 as [_ Hid]. cbn [set_avatar User._id]. rewrite Hid.
    by apply String.eqb_neq.
Qed.

Lemma filter_all {A} (p : A → bool) (l : list A) :
  (∀ a, a ∈ l → p a = true) → List.filter p l = l.
Proof.
  induction l as [| a l IH]; simpl; [reflexivity |]. intros Hall.
  rewrite (Hall a) by apply list_elem_of_here.
  rewrite IH; [reflexivity |]. intros b Hb. by apply Hall, list_elem_of_further.
Qed.

Lemma set_addresses_same u : User.set_addresses u (User.addresses u) = u.
Proof. by destruct u. Qed.

(** Pulling an id that no address of the user has leaves the collection as
    it is. *)
Lemma updateOne_pull_none docs userId addressId :
  (∀ u a, User.findById docs (JString userId) = Some u →
          a ∈ User.addresses u → has_id addressId a = false) →
  updateOne_pull docs userId addressId = docs.
Proof.
  intros Hno. unfold updateOne_pull.
  destruct (User.findById docs (JString userId)) as [u |] eqn:Hu; [| reflexivity].
  rewrite filter_all.
  - rewrite set_addresses_same. by eapply save_found.
  - intros a Ha. by rewrite (Hno u a eq_refl Ha).
Qed.

(** After a pull, no address of the user has the id. *)
Lemma updateOne_pull_gone docs userId addressId u a :
  User.findById (updateOne_pull docs userId addressId) (JString userId) = Some u →
  a ∈ User.addresses u → has_id addressId a = false.
Proof.
  unfold updateOne_pull.
  destruct (User.findById docs (JString userId)) as [v |] eqn:Hv.
  - rewrite (findById_save_same v (User.set_addresses v _) userId docs Hv eq_refl).
    intros [= <-]. cbn [User.set_addresses User.addresses]. intros Ha.
    apply list_elem_of_In, filter_In in Ha as [_ Ha]. by apply negb_true_iff.
  - rewrite Hv. discriminate.
Qed.



(** X22. Delete-address is idempotent: sending the same request again
    gives the same answer and the same world as sending it once. *)
Theorem delete_user_address_idempotent w req :
  delete_user_address (fst (delete_user_address w req)) req
  = delete_user_address w req.
Proof.
  set (w1 := fst (delete_user_address w req)).
  assert (Hno : ∀ u a, User.findById (users w1) (JString (user_id req)) = Some u →
                       a ∈ User.addresses u → has_id (params_id req) a = false).
  { intros u a. apply updateOne_pull_gone. }
  unfold delete_user_address at 1.
  rewrite (updateOne_pull_none _ _ _ Hno).
  unfold w1, delete_user_address. reflexivity.
Qed.

(** X23. Round trip on the addresses: after the address route has appended
    a new address whose id is a string that no stored address has,
    delete-address with that id gives back the world as it was. *)
Theorem delete_after_update_user_addresses w req1 req2 user id :
  User.findById (users w) (JString (user_id req1)) = Some user →
  (∀ a, a ∈ User.addresses user → same_type req1 a = false) →
  (∀ a, a ∈ User.addresses user → has_id id a = false) →
  prop (body req1) "_id" = JString id →
  user_id req2 = user_id req1 →
  params_id req2 = id →
  fst (delete_user_address (fst (update_user_addresses w req1)) req2) = w.
Proof.
  intros Hu Htype Hid Hbody Hsession Hparam.
  assert (Hnotype : list_find (λ address, strict_eq (prop address "addressType")
                                 (prop (body req1) "addressType") = true)
                      (User.addresses user) = None).
  { apply list_find_None, Forall_forall. intros a Ha.
    specialize (Htype a Ha). unfold same_type in Htype. congruence. }
  assert (Hnoid : list_find (λ address, strict_eq (prop address "_id")
                               (prop (body req1) "_id") = true)
                    (User.addresses user) = None).
  { apply list_find_None, Forall_forall. intros a Ha.
    specialize (Hid a Ha). unfold has_id in Hid. rewrite Hbody.
    destruct (prop a "_id"); simpl; congruence. }
  unfold update_user_addresses. rewrite Hu, Hnotype, Hnoid.
  unfold delete_user_address, updateOne_pull. cbn [fst users set_users].
  rewrite Hsession, Hparam.
  rewrite (findById_save_same user (User.set_addresses user _) _ _ Hu eq_refl).
  cbn [User.set_addresses User.addresses User._id].
  rewrite save_save by reflexivity.
  assert (Hkeep : ∀ a, a ∈ User.addresses user → negb (has_id id a) = true)
    by (intros a Ha; by rewrite (Hid a Ha)).
  rewrite List.filter_app, (filter_all _ _ Hkeep).
  simpl. unfold has_id at 1. rewrite Hbody, String.eqb_refl. simpl.
  rewrite app_nil_r.
  replace (User.set_addresses (User.set_addresses user _) (User.addresses user))
    with user by (by destruct user).
  rewrite (save_found _ _ _ Hu). by destruct w.
Qed.

End Account_properties.

(** ** Deleting a user, editing a profile *)

Section Admin_and_profile.
Context `{Externals}.

(** X24. Delete-user on an existing id, in a store with unique
    identifiers: the answer is the success message with status 201, the id
    resolves to no user afterwards, one user less is stored, and the
    record of every other user reads as before. *)
Theorem delete_user_removes w req user :
  NoDup (ids w) →
  User.findById (users w) (JString (params_id req)) = Some user →
  snd (delete_user w req)
    = res_status_json 201 (body_message true "User deleted successfully!")
  ∧ User.findById (users (fst (delete_user w req))) (JString (params_id req)) = None
  ∧ S (length (users (fst (delete_user w req)))) = length (users w)
  ∧ (∀ id, id ≠ params_id req →
       User.findById (users (fst (delete_user w req))) (JString id)
       = User.findById (users w) (JString id)).
Proof.
  intros Hnd Hu. unfold delete_user. rewrite Hu. cbn [fst snd users set_users].
  split; [reflexivity |].
  split; [by apply findByIdAndDelete_gone |].
  split; [by eapply findByIdAndDelete_length |].
  intros id Hne. by apply findByIdAndDelete_other.
Qed.

(** X25. The referral code of a deleted user stays redeemable: after
    delete-user has removed the owner of a code, apply-referral with that
    code for another user without a referrer succeeds, and the referredBy
    it sets names an id that resolves to no user. *)
Theorem apply_referral_after_delete_user w del req referral id target :
  NoDup (ids w) →
  findOne (λ r, strict_eq (JString (ReferralCode.code r))
                          (prop (body req) "referralCode"))
          (referralCodes w) = Some referral →
  params_id del = toString (ReferralCode.userId referral) →
  is_Some (User.findById (users w) (JString (params_id del))) →
  prop (body req) "userId" = JString id →
  id ≠ params_id del →
  User.findById (users w) (JString id) = Some target →
  User.referredBy target = None →
  snd (apply_referral (fst (delete_user w del)) req)
    = res_status_json 200 (body_message true "Referral code applied successfully")
  ∧ referredBy_of (fst (apply_referral (fst (delete_user w del)) req)) id
    = Some (ReferralCode.userId referral)
  ∧ User.findById (users (fst (apply_referral (fst (delete_user w del)) req)))
                  (JString (toString (ReferralCode.userId referral))) = None.
Proof.
  intros Hnd Hcode Howner [owner Hfound] Hid Hne Htarget Hnone.
  assert (Hw1 : fst (delete_user w del)
                = set_users w (findByIdAndDelete (users w) (params_id del)))
    by (unfold delete_user; by rewrite Hfound).
  assert (Htarget1 : User.findById (users (fst (delete_user w del))) (JString id)
                     = Some target).
  { rewrite Hw1. cbn [users set_users]. by rewrite findByIdAndDelete_other. }
  unfold apply_referral, referredBy_of.
  replace (referralCodes (fst (delete_user w del))) with (referralCodes w)
    by (by rewrite Hw1).
  rewrite Hcode, Hid. cbn [strict_eq].
  rewrite <- Howner, (proj2 (String.eqb_neq (params_id del) id)) by congruence.
  rewrite Htarget1, Hnone. unfold set_referralCodes, set_users. cbn [fst snd users].
  split; [reflexivity |]. split.
  - by rewrite (findById_save_same target (User.set_referredBy target _) id _ Htarget1).
  - rewrite findById_save_other.
    + rewrite Hw1. cbn [users set_users]. by apply findByIdAndDelete_gone.
    + cbn [User.set_referredBy User._id].
      apply findById_elem in Htarget as [_ ->]. by apply String.eqb_neq.
Qed.

(** X26. The profile route never changes an email, a password or a
    referral link: it looks the user up by the email of the body and writes
    that same email back, so in a store with unique identifiers the emails,
    passwords and referredBy values of all stored users are as before. *)
Theorem update_user_info_keeps_credentials w req :
  NoDup (ids w) →
  User.email <$> users (fst (update_user_info w req)) = User.email <$> users w
  ∧ User.password <$> users (fst (update_user_info w req)) = User.password <$> users w
  ∧ User.referredBy <$> users (fst (update_user_info w req))
    = User.referredBy <$> users w.
Proof.
  intros Hnd. unfold update_user_info.
  destruct (findOne _ (users w)) as [user |] eqn:Hfind; [| done].
  destruct (negb _); [done |]. cbn [fst users set_users].
  apply findOne_elem in Hfind as [Hin Hmail]. apply strict_eq_true in Hmail.
  split; [| split]; apply (save_fmap _ user);
    first [done | cbn [set_profile User.email]; by rewrite Hmail].
Qed.

(** X27. The profile route acts on the account that owns the email of the
    body, whoever holds the session: when that account exists and the
    password of the body is accepted for it, the answer has status 201 and
    carries that account with the name and phone number of the body, the
    store holds it under the same id, and no other record changes. *)
Theorem update_user_info_changes_email_owner w req owner :
  NoDup (ids w) →
  findOne (λ u, strict_eq (User.email u) (prop (body req) "email")) (users w)
    = Some owner →
  comparePassword owner (prop (body req) "password") = true →
  ∃ owner',
    snd (update_user_info w req) = res_status_json 201 (body_user true (Some owner'))
    ∧ User.findById (users (fst (update_user_info w req)))
                    (JString (toString (User._id owner))) = Some owner'
    ∧ User.name owner' = prop (body req) "name"
    ∧ User.phoneNumber owner' = prop (body req) "phoneNumber"
    ∧ (∀ id, id ≠ toString (User._id owner) →
         User.findById (users (fst (update_user_info w req))) (JString id)
         = User.findById (users w) (JString id)).
Proof.
  intros Hnd Hfind Hpw. unfold update_user_info. rewrite Hfind, Hpw.
  cbn [negb fst snd users set_users].
  apply findOne_elem in Hfind as [Hin _].
  eexists. split; [reflexivity |]. split; [| split; [reflexivity |]].
  - apply findById_save_same with owner; [by apply NoDup_findById | reflexivity].
  - split; [reflexivity |]. intros id Hne. apply findById_save_other.
    cbn [set_profile User._id]. apply String.eqb_neq. congruence.
Qed.

End Admin_and_profile.

(** * The remaining routes on the sample shops *)

(** X1, at a concrete request: Carol registers with the email of Alice. *)
Lemma create_user_duplicate_email_witness :
  fails_with (snd (create_user shop alice_mail_req)) 400
  ∧ same_records shop (fst (create_user shop alice_mail_req))
  ∧ (truthy (prop (body alice_mail_req) "inputReferralCode") = false
     ∨ is_Some (verifyReferralCode shop (prop (body alice_mail_req) "inputReferralCode")) →
     upload_deleted (fst (create_user shop alice_mail_req)) alice_mail_req).
Proof.
  apply (create_user_duplicate_email shop alice_mail_req alice);
    vm_compute; reflexivity.
Defined.

(** Carol registers with her photo: the token answer. *)
Example create_user_carol :
  snd (create_user shop carol_req)
  = sendToken carol 201 (Some (mkResponseData true carol None)).
Proof. vm_compute. reflexivity. Qed.

(** X3, at a concrete request: the registration of Carol. *)
Lemma create_user_creates_user_and_code_witness :
  User._id carol = new_ObjectId shop
  ∧ User.addresses carol = []
  ∧ (truthy (prop (body carol_req) "inputReferralCode") = true →
     ∃ d, verifyReferralCode shop (prop (body carol_req) "inputReferralCode") = Some d
          ∧ User.referredBy carol = Some (referrerId d))
  ∧ (truthy (prop (body carol_req) "inputReferralCode") = false →
     User.referredBy carol = None
     ∧ referralCodes (fst (create_user shop carol_req))
       = referralCodes shop ++ [ReferralCode.mk (User.referralCode carol)
                                  (User._id carol) (User.name carol) []]).
Proof.
  apply (create_user_creates_user_and_code shop carol_req carol 201
           (Some (mkResponseData true carol None))).
  vm_compute. reflexivity.
Defined.

Lemma emails_unique_shop : emails_unique (users shop).
Proof.
  intros i j a b Hi Hj Ht Heq.
  destruct i as [| [| i]], j as [| [| j]]; simpl in *; simplify_eq; done.
Qed.

(** X4, at a concrete request: the shop after the registration of Carol. *)
Lemma create_user_keeps_emails_unique_witness :
  emails_unique (users (fst (create_user shop carol_mail_req))).
Proof.
  apply (create_user_keeps_emails_unique shop carol_mail_req).
  exact emails_unique_shop.
Defined.

(** X5, at concrete requests: Carol registers with LMNOP4321Q, then with
    lmnop4321q. *)
Lemma create_user_refuses_known_upper_panCard_witness :
  fails_with
    (snd (create_user (fst (create_user shop carol_upper_req)) carol_mail_req)) 400
  ∧ same_records
      (fst (create_user shop carol_upper_req))
      (fst (create_user (fst (create_user shop carol_upper_req)) carol_mail_req)).
Proof.
  eapply (create_user_refuses_known_upper_panCard shop carol_upper_req carol_mail_req
            "LMNOP4321Q" "lmnop4321q");
    [reflexivity | vm_compute; reflexivity ..].
Defined.

(** X6, at a concrete request: Carol registers and asks for her record. *)
Lemma getuser_after_create_user_witness :
  getuser (fst (create_user shop carol_req)) carol_session_req
  = (fst (create_user shop carol_req),
     res_status_json 200 (body_user true (Some (select_default carol)))).
Proof.
  apply (getuser_after_create_user shop carol_req carol 201
           (Some (mkResponseData true carol None)));
    vm_compute; reflexivity.
Defined.

(** X7, at a concrete request: Carol registers with an email and logs
    in. *)
Lemma login_after_create_user_witness :
  ∃ user, snd (login_user (fst (create_user shop carol_mail_req)) carol_login_req)
          = sendToken user 201 None.
Proof.
  eexists.
  eapply (login_after_create_user shop carol_mail_req _ _ _ "carol@shop.in");
    [reflexivity | vm_compute; reflexivity | discriminate | vm_compute; reflexivity ..].
Defined.

(** X8, at a concrete request: Alice redeems the code of Bob. *)
Lemma apply_referral_links_target_witness :
  snd (apply_referral shop bob_code_req)
    = res_status_json 200 (body_message true "Referral code applied successfully")
  ∧ referredBy_of (fst (apply_referral shop bob_code_req)) alice_id
    = Some (mkObjectId bob_id)
  ∧ (∀ id', id' ≠ alice_id →
       User.findById (users (fst (apply_referral shop bob_code_req))) (JString id')
       = User.findById (users shop) (JString id')).
Proof.
  apply (apply_referral_links_target shop bob_code_req
           (ReferralCode.mk "Bob1" (mkObjectId bob_id) (JString "Bob") [])
           alice_id alice);
    first [vm_compute; reflexivity | vm_compute; discriminate].
Defined.

(** X10, X11 at a concrete request: the password change of Alice. *)
Lemma routes_keep_ids_witness :
  ids (fst (dispatch update_user_password_route shop change_req)) = ids shop.
Proof. apply routes_keep_ids; discriminate. Defined.

Lemma routes_keep_referralCodes_witness :
  referralCodes (fst (dispatch update_user_password_route shop change_req))
  = referralCodes shop.
Proof. apply routes_keep_referralCodes; discriminate. Defined.

Lemma addresses_ok_shop : addresses_ok shop.
Proof.
  intros u Hu. unfold shop in Hu. cbn [users] in Hu.
  repeat (apply elem_of_cons in Hu as [-> | Hu]); [| done | by apply elem_of_nil in Hu].
  split; [| done]. intros b Hb. by apply elem_of_nil in Hb.
Qed.

Lemma NoDup_ids_shop : NoDup (ids shop).
Proof. apply (bool_decide_unpack _). vm_compute. exact I. Qed.

Lemma NoDup_ids_gallery : NoDup (ids gallery).
Proof. apply (bool_decide_unpack _). vm_compute. exact I. Qed.

(** X13, on a concrete history: Alice adds an Office address, edits her
    address a1 and deletes the address a2. *)
Lemma serve_keeps_addresses_ok_witness :
  addresses_ok (serve shop [ (update_user_addresses_route, office_req);
                             (update_user_addresses_route, edit_a1_req);
                             (delete_user_address_route, delete_a2_req) ]).
Proof. apply serve_keeps_addresses_ok. exact addresses_ok_shop. Defined.

(** X14, on a concrete history: Carol registers, the profile of Alice is
    edited, Bob changes his avatar and Alice redeems the code of Bob; Bob
    stays referred by Alice. *)
Lemma serve_keeps_referredBy_witness :
  referredBy_of (serve shop [ (create_user_route, carol_req);
                              (update_user_info_route, profile_req);
                              (update_avatar_route, bob_avatar_req);
                              (apply_referral_route, bob_code_req) ])
                bob_id
  = Some (mkObjectId alice_id).
Proof.
  apply serve_keeps_referredBy.
  - exact NoDup_ids_shop.
  - repeat split; try discriminate.
    intros _. apply (proj1 (bool_decide_eq_false _)). vm_compute. reflexivity.
  - repeat constructor; discriminate.
  - vm_compute. reflexivity.
Defined.

(** X15, at a concrete request: Alice adds an address; the record of Bob
    reads as before. *)
Lemma session_routes_touch_only_session_user_witness :
  User.findById (users (fst (dispatch update_user_addresses_route shop office_req)))
                (JString bob_id)
  = User.findById (users shop) (JString bob_id).
Proof.
  apply session_routes_touch_only_session_user.
  - apply list_elem_of_further, list_elem_of_further, list_elem_of_here.
  - vm_compute. discriminate.
Defined.

(** X16, at a concrete request: the avatar file of Alice is not on disk. *)
Lemma update_avatar_missing_file_witness :
  fails_with (snd (update_avatar shop alice_avatar_req)) 500
  ∧ fst (update_avatar shop alice_avatar_req) = shop.
Proof.
  apply (update_avatar_missing_file shop alice_avatar_req alice).
  - vm_compute. reflexivity.
  - apply (proj1 (bool_decide_eq_false _)). vm_compute. reflexivity.
Defined.


(** X18, at a concrete request: Bob asks for a new avatar and sends no
    picture. *)
Lemma update_avatar_without_upload_witness :
  fails_with (snd (update_avatar shop bob_no_avatar_req)) 500
  ∧ users (fst (update_avatar shop bob_no_avatar_req)) = users shop
  ∧ "uploads/" +:+ User.avatar bob ∉ files (fst (update_avatar shop bob_no_avatar_req)).
Proof.
  apply (update_avatar_without_upload shop bob_no_avatar_req bob).
  - vm_compute. reflexivity.
  - apply (bool_decide_unpack _). vm_compute. exact I.
  - reflexivity.
Defined.

(** X19, at concrete requests: Dana changes her avatar, then Alice tries. *)
Lemma update_avatar_shared_file_witness :
  fails_with
    (snd (update_avatar (fst (update_avatar gallery dana_avatar_req)) alice_avatar_req))
    500.
Proof.
  apply (update_avatar_shared_file gallery dana_avatar_req alice_avatar_req
           dana alice "new.png").
  - vm_compute. reflexivity.
  - vm_compute. reflexivity.
  - vm_compute. discriminate.
  - reflexivity.
  - apply (bool_decide_unpack _). vm_compute. exact I.
  - reflexivity.
Defined.


Example delete_user_address_a1 :
  User.addresses <$> User.findById
      (users (fst (delete_user_address shop delete_a1_req))) (JString alice_id)
  = Some [].
Proof. vm_compute. reflexivity. Qed.


(** X23, at concrete requests: Alice adds the Office address a2 and
    deletes it. *)
Lemma delete_after_update_user_addresses_witness :
  fst (delete_user_address (fst (update_user_addresses shop office_req)) delete_a2_req)
  = shop.
Proof.
  apply (delete_after_update_user_addresses shop office_req delete_a2_req alice "a2");
    try (vm_compute; reflexivity);
    intros a Ha; unfold alice in Ha; cbn [User.addresses] in Ha;
    apply list_elem_of_singleton in Ha as ->; vm_compute; reflexivity.
Defined.

(** X24, at a concrete request: Bob is deleted. *)
Lemma delete_user_removes_witness :
  snd (delete_user shop delete_bob_req)
    = res_status_json 201 (body_message true "User deleted successfully!")
  ∧ User.findById (users (fst (delete_user shop delete_bob_req)))
                  (JString (params_id delete_bob_req)) = None
  ∧ S (length (users (fst (delete_user shop delete_bob_req)))) = length (users shop)
  ∧ (∀ id, id ≠ params_id delete_bob_req →
       User.findById (users (fst (delete_user shop delete_bob_req))) (JString id)
       = User.findById (users shop) (JString id)).
Proof.
  apply (delete_user_removes shop delete_bob_req bob).
  - exact NoDup_ids_shop.
  - vm_compute. reflexivity.
Defined.

(** X25, at concrete requests: Alice is deleted, then Dana redeems the
    code of Alice. *)
Lemma apply_referral_after_delete_user_witness :
  snd (apply_referral (fst (delete_user gallery delete_alice_req)) dana_code_req)
    = res_status_json 200 (body_message true "Referral code applied successfully")
  ∧ referredBy_of (fst (apply_referral (fst (delete_user gallery delete_alice_req))
                                       dana_code_req)) dana_id
    = Some (mkObjectId alice_id)
  ∧ User.findById
      (users (fst (apply_referral (fst (delete_user gallery delete_alice_req))
                                  dana_code_req)))
      (JString alice_id) = None.
Proof.
  apply (apply_referral_after_delete_user gallery delete_alice_req dana_code_req
           (ReferralCode.mk "Alice0" (mkObjectId alice_id) (JString "Alice") [])
           dana_id dana).
  - exact NoDup_ids_gallery.
  - vm_compute. reflexivity.
  - reflexivity.
  - exists alice. vm_compute. reflexivity.
  - vm_compute. reflexivity.
  - vm_compute. discriminate.
  - vm_compute. reflexivity.
  - reflexivity.
Defined.

(** X26, X27 at a concrete request: the profile of Alice, edited in the
    session of Bob. *)
Lemma update_user_info_keeps_credentials_witness :
  User.email <$> users (fst (update_user_info shop profile_req))
  = User.email <$> users shop
  ∧ User.password <$> users (fst (update_user_info shop profile_req))
    = User.password <$> users shop
  ∧ User.referredBy <$> users (fst (update_user_info shop profile_req))
    = User.referredBy <$> users shop.
Proof. apply update_user_info_keeps_credentials. exact NoDup_ids_shop. Defined.

Lemma update_user_info_changes_email_owner_witness :
  ∃ owner',
    snd (update_user_info shop profile_req)
      = res_status_json 201 (body_user true (Some owner'))
    ∧ User.findById (users (fst (update_user_info shop profile_req)))
                    (JString (toString (User._id alice))) = Some owner'
    ∧ User.name owner' = prop (body profile_req) "name"
    ∧ User.phoneNumber owner' = prop (body profile_req) "phoneNumber"
    ∧ (∀ id, id ≠ toString (User._id alice) →
         User.findById (users (fst (update_user_info shop profile_req))) (JString id)
         = User.findById (users shop) (JString id)).
Proof.
  apply (update_user_info_changes_email_owner shop profile_req alice).
  - exact NoDup_ids_shop.
  - vm_compute. reflexivity.
  - vm_compute. reflexivity.
Defined.
